(** * wazuh.core.stats: a shallow embedding and its verification

    The development follows [framework/wazuh/core/stats.py]:
    - [hourly_], [weekly_]            : bucket files of the historical averages;
    - [totals_]                       : the daily totals log;
    - [get_daemons_stats_]            : a daemon's [key="value"] state file;
    - [get_agents_component_stats_json_] : the per-agent fan out;
    - [get_daemons_stats_from_socket] : the control-socket client.

    Text is modelled by [string] (one character per code point below 256),
    Python integers by [Z], lists by [list], dictionaries by [gmap], and
    exceptions by an explicit [result] monad.  The file system, the socket
    transport, the agent inventory, [json.loads], [float] and the date
    formatter are collaborators of the module and appear as parameters. *)

From Stdlib Require Import ZArith Ascii String List Lia Bool.
From stdpp Require Import base option list strings gmap pretty.

Local Open Scope string_scope.
Local Open Scope Z_scope.
Local Open Scope list_scope.

(** ** Exceptions and results *)

Module Py.

(** The exceptions that can leave the functions of the module. *)
Inductive exn : Type :=
  | WazuhError (code : Z) (extra_message : option string)
  | WazuhInternalError (code : Z) (extra_message : option string)
  | WazuhResourceNotFound (code : Z)
  | ValueError
  | IndexError
  | PyException (name : string).

(** [isinstance(e, WazuhException)]: the platform's own error family. *)
Definition is_WazuhException (e : exn) : bool :=
  match e with
  | WazuhError _ _ | WazuhInternalError _ _ | WazuhResourceNotFound _ => true
  | ValueError | IndexError | PyException _ => false
  end.

(** [isinstance(e, ValueError)]. *)
Definition is_ValueError (e : exn) : bool :=
  match e with
  | ValueError => true
  | _ => false
  end.

Inductive result (A : Type) : Type :=
  | Return (a : A)
  | Raise (e : exn).
Arguments Return {A} a.
Arguments Raise {A} e.

Definition bind {A B : Type} (m : result A) (k : A -> result B) : result B :=
  match m with
  | Return a => k a
  | Raise e => Raise e
  end.

#[global] Instance result_ret : MRet result := fun A a => Return a.
#[global] Instance result_bind : MBind result := fun A B k m => bind m k.

(** ** Strings *)

Definition chr (n : nat) : ascii := ascii_of_nat n.
Definition newline : ascii := chr 10.
Definition NL : string := String newline "".

(** [len(s)] *)
Definition len (s : string) : nat := String.length s.

(** [c in s] for a one-character [c]. *)
Fixpoint contains (c : ascii) (s : string) : bool :=
  match s with
  | EmptyString => false
  | String d r => if Ascii.eqb c d then true else contains c r
  end.

Fixpoint rev_string_onto (acc s : string) : string :=
  match s with
  | EmptyString => acc
  | String c r => rev_string_onto (String c acc) r
  end.

Definition rev_string (s : string) : string := rev_string_onto "" s.

(** [s.split(sep)] for a non-empty [sep]: cut at each occurrence of [sep],
    scanning from the left; [skip] counts the characters of a separator that
    was just matched and is still to be passed over, [cur] holds the current
    field in reverse. *)
Fixpoint split_go (sep : string) (s : string) (skip : nat) (cur : string)
  : list string :=
  match s with
  | EmptyString => [rev_string cur]
  | String c r =>
      match skip with
      | S k => split_go sep r k cur
      | O =>
          if String.prefix sep s
          then rev_string cur :: split_go sep r (len sep - 1) ""
          else split_go sep r O (String c cur)
      end
  end.

Definition split (sep s : string) : list string := split_go sep s O "".

(** [s.split(" ", 1)[1]]: what follows the first space, when there is one. *)
Fixpoint after_first_space (s : string) : option string :=
  match s with
  | EmptyString => None
  | String c r => if Ascii.eqb c " " then Some r else after_first_space r
  end.

(** [s[:-1]] *)
Fixpoint drop_last (s : string) : string :=
  match s with
  | EmptyString => ""
  | String c EmptyString => ""
  | String c r => String c (drop_last r)
  end.

(** [s[1:-1]] *)
Definition strip_ends (s : string) : string :=
  match s with
  | EmptyString => ""
  | String _ r => drop_last r
  end.

(** [data[i]] on a list, raising [IndexError] out of range. *)
Definition index {A : Type} (data : list A) (i : nat) : result A :=
  match data !! i with
  | Some x => Return x
  | None => Raise IndexError
  end.

(** [f.readlines()] on the text of a file: each line keeps its terminating
    newline, the last line has none when the text does not end with one. *)
Fixpoint readlines_go (s : string) (cur : string) : list string :=
  match s with
  | EmptyString =>
      match cur with
      | EmptyString => []
      | _ => [rev_string cur]
      end
  | String c r =>
      if Ascii.eqb c newline
      then rev_string (String c cur) :: readlines_go r ""
      else readlines_go r (String c cur)
  end.

Definition readlines (s : string) : list string := readlines_go s "".

(** [s.zfill(width)]: zeros are inserted after a leading sign. *)
Definition zeros (n : nat) : string := string_of_list_ascii (repeat "0"%char n).

Definition zfill (width : nat) (s : string) : string :=
  if (width <=? len s)%nat then s
  else
    let fill := zeros (width - len s) in
    match s with
    | String c r =>
        if Ascii.eqb c "+" || Ascii.eqb c "-"
        then String c (fill +:+ r)
        else fill +:+ s
    | EmptyString => fill
    end.

(** [os.path.join(a, b)] on POSIX. *)
Definition ends_with_slash (s : string) : bool :=
  match rev_string s with
  | String c _ => Ascii.eqb c "/"
  | EmptyString => false
  end.

Definition path_join (a b : string) : string :=
  match b with
  | String "/" _ => b
  | _ =>
      match a with
      | EmptyString => b
      | _ => if ends_with_slash a then a +:+ b else a +:+ "/" +:+ b
      end
  end.

(** ** [int(text)] in base 10 *)

(** The blanks that [int] passes over at both ends of its argument, on the
    code points below 256: tab, newline, vertical tab, form feed, carriage
    return and space, and the two blanks above 127 (next line and no-break
    space).  The separators 28 to 31 are not among them: [int] refuses a
    text that holds one. *)
Definition is_space (c : ascii) : bool :=
  let n := nat_of_ascii c in
  ((9 <=? n) && (n <=? 13) || (n =? 32) || (n =? 133) || (n =? 160))%nat.

Definition digit_of (c : ascii) : option Z :=
  let n := nat_of_ascii c in
  if ((48 <=? n) && (n <=? 57))%nat then Some (Z.of_nat n - 48) else None.

Fixpoint lstrip (s : string) : string :=
  match s with
  | String c r => if is_space c then lstrip r else s
  | EmptyString => ""
  end.

Definition strip (s : string) : string :=
  rev_string (lstrip (rev_string (lstrip s))).

(** Digits with single underscores between them; [prev] tells whether the
    character just read was a digit. *)
Fixpoint digits_value (acc : Z) (prev : bool) (s : string) : option Z :=
  match s with
  | EmptyString => if prev then Some acc else None
  | String c r =>
      match digit_of c with
      | Some d => digits_value (10 * acc + d) true r
      | None =>
          if Ascii.eqb c "_" && prev then digits_value acc false r else None
      end
  end.

Definition parse_int (s : string) : option Z :=
  match strip s with
  | String "-" r => Z.opp <$> digits_value 0 false r
  | String "+" r => digits_value 0 false r
  | t => digits_value 0 false t
  end.

(** [int(s)] raises [ValueError] on text that is no integer literal. *)
Definition int (s : string) : result Z :=
  match parse_int s with
  | Some z => Return z
  | None => Raise ValueError
  end.

(** [str(n)] for a natural number. *)
Definition str (n : nat) : string := pretty n.

End Py.

Import Py.

(** ** The module's constants *)

Definition DAYS : list string :=
  ["Sun"; "Mon"; "Tue"; "Wed"; "Thu"; "Fri"; "Sat"].

Definition MONTHS : list string :=
  ["Jan"; "Feb"; "Mar"; "Apr"; "May"; "Jun";
   "Jul"; "Aug"; "Sep"; "Oct"; "Nov"; "Dec"].

(** ** Data model *)

Record HourlyAverage : Type := mkHourly {
  averages : list Z;
  interactions : Z }.

(** One entry of [weekly_]'s result, the dictionary [{day: {...}}]. *)
Record WeeklyAverage : Type := mkWeekly {
  day : string;
  hours : list Z;
  week_interactions : Z }.

Record AlertRecord : Type := mkAlert {
  sigid : Z;
  level : Z;
  times : Z }.

Record TotalsRecord : Type := mkTotals {
  hour : Z;
  alerts : list AlertRecord;
  totalAlerts : Z;
  events : Z;
  syscheck : Z;
  firewall : Z }.

(** The date argument of [totals_]. *)
Record date : Type := mkDate {
  year : nat;
  month : nat;
  day_of_month : nat }.

(** ** Reading the stores *)

Section Files.

(** [common.stats_path]. *)
Variable stats_path : string.

(** [open(path, mode='r')] followed by [read()]: the text of the file, or
    [None] when opening or reading raises [IOError]. *)
Variable fs : string -> option string.

(** *** [hourly_] and [weekly_] *)

(** The path of bucket [i] in directory [dir]. *)
Definition bucket_file (dir : string) (i : nat) : string :=
  dir +:+ "/" +:+ str i.

(** The body of the loop over the 25 files of one directory: the state is
    the pair of [averages] (resp. [hours]) and [interactions]. *)
Definition bucket_step (dir : string) (st : list Z * Z) (i : nat)
  : result (list Z * Z) :=
  let '(averages, interactions) := st in
  match fs (bucket_file dir i) with
  | Some data =>
      if (i =? 24)%nat
      then v ← int data; mret (averages, v)
      else v ← int data; mret (averages ++ [v], interactions)
  | None =>
      if (i <? 24)%nat
      then mret (averages ++ [0], interactions)
      else mret (averages, 0)
  end.

Fixpoint bucket_loop (dir : string) (range : list nat) (st : list Z * Z)
  : result (list Z * Z) :=
  match range with
  | [] => mret st
  | i :: range' => st' ← bucket_step dir st i; bucket_loop dir range' st'
  end.

(** The counter a bucket file stands for: the integer it holds, 0 when the
    file cannot be read. *)
Definition bucket_value (dir : string) (i : nat) : Z :=
  match fs (bucket_file dir i) with
  | Some data => default 0 (parse_int data)
  | None => 0
  end.

(** Every bucket file of [dir] that can be read holds an integer. *)
Definition buckets_parse (dir : string) : Prop :=
  forall i data, (i < 25)%nat ->
    fs (bucket_file dir i) = Some data -> is_Some (parse_int data).

(** The same as a test that can be run. *)
Definition buckets_parseb (dir : string) : bool :=
  forallb
    (fun i =>
       match fs (bucket_file dir i) with
       | Some data => bool_decide (is_Some (parse_int data))
       | None => true
       end)
    (seq 0 25).

Definition hourly_dir : string := stats_path +:+ "/hourly-average".
Definition weekly_dir (i : nat) : string :=
  stats_path +:+ "/weekly-average/" +:+ str i.

Definition hourly_ : result (list HourlyAverage) :=
  st ← bucket_loop hourly_dir (seq 0 25) ([], 0);
  mret [mkHourly st.1 st.2].

Fixpoint weekly_loop (range : list nat) (weekly_results : list WeeklyAverage)
  : result (list WeeklyAverage) :=
  match range with
  | [] => mret weekly_results
  | i :: range' =>
      st ← bucket_loop (weekly_dir i) (seq 0 25) ([], 0);
      d ← index DAYS i;
      weekly_loop range' (weekly_results ++ [mkWeekly d st.1 st.2])
  end.

Definition weekly_ : result (list WeeklyAverage) := weekly_loop (seq 0 7) [].

(** The record of day [i] as the bucket files of its directory define it. *)
Definition weekly_entry (i : nat) : WeeklyAverage :=
  mkWeekly (default "" (DAYS !! i))
    (bucket_value (weekly_dir i) <$> seq 0 24)
    (bucket_value (weekly_dir i) 24).

(** *** [totals_] *)

(** [date.strftime('%d')] *)
Definition strftime_d (d : date) : string := zfill 2 (str (day_of_month d)).

Definition stat_filename (d : date) : result string :=
  m ← index MONTHS (month d - 1);
  mret (path_join
          (path_join (path_join (path_join stats_path "totals") (str (year d))) m)
          ("ossec-totals-" +:+ strftime_d d +:+ ".log")).

(** What one turn of the loop over the lines does: it goes on to the next
    line with new accumulators, or it leaves the function. *)
Inductive flow : Type :=
  | Next (alerts : list AlertRecord) (affected : list TotalsRecord)
  | Done (failed : bool) (affected : list TotalsRecord).

(** The body of the loop, for one line. *)
Definition totals_line (line : string)
    (alerts : list AlertRecord) (affected : list TotalsRecord) : result flow :=
  let data := split "-" line in
  if (length data =? 4)%nat then
    s ← index data 1 ≫= int;
    l ← index data 2 ≫= int;
    t ← index data 3 ≫= int;
    mret (Next (alerts ++ [mkAlert s l t]) affected)
  else
    let data := split "--" line in
    if negb (length data =? 5)%nat then
      if (length data =? 0)%nat || (length data =? 1)%nat
      then mret (Next alerts affected)
      else mret (Done true affected)
    else
      h ← index data 0 ≫= int;
      ta ← index data 1 ≫= int;
      ev ← index data 2 ≫= int;
      sc ← index data 3 ≫= int;
      fw ← index data 4 ≫= int;
      mret (Next [] (affected ++ [mkTotals h alerts ta ev sc fw])).

(** The loop over the lines of the log, with its two accumulators. *)
Fixpoint totals_loop (stats : list string)
    (alerts : list AlertRecord) (affected : list TotalsRecord)
  : result (bool * list TotalsRecord) :=
  match stats with
  | [] => mret (false, affected)
  | line :: stats' =>
      f ← totals_line line alerts affected;
      match f with
      | Next alerts' affected' => totals_loop stats' alerts' affected'
      | Done failed affected' => mret (failed, affected')
      end
  end.

(** Where the loop stands after the lines [stats], when more lines follow. *)
Fixpoint totals_scan (stats : list string)
    (alerts : list AlertRecord) (affected : list TotalsRecord) : result flow :=
  match stats with
  | [] => mret (Next alerts affected)
  | line :: stats' =>
      f ← totals_line line alerts affected;
      match f with
      | Next alerts' affected' => totals_scan stats' alerts' affected'
      | Done failed affected' => mret (Done failed affected')
      end
  end.

Definition totals_ (d : date) : result (bool * list TotalsRecord) :=
  name ← stat_filename d;
  match fs name with
  | None => Raise (WazuhError 1308 (Some name))
  | Some text => totals_loop (readlines text) [] []
  end.

End Files.

(** *** The lines of a totals log *)

(** A line that [split('-')] cuts into 4 fields is read as an alert. *)
Definition is_alert_line (line : string) : Prop :=
  length (split "-" line) = 4%nat.

(** A line that [split('--')] cuts into 5 fields closes an hour. *)
Definition is_closing_line (line : string) : Prop :=
  length (split "--" line) = 5%nat.

(** A line that is no alert and that [split('--')] cuts into 2, 3, 4 or more
    than 5 fields. *)
Definition is_malformed_line (line : string) : Prop :=
  length (split "-" line) <> 4%nat
  /\ length (split "--" line) <> 0%nat
  /\ length (split "--" line) <> 1%nat
  /\ length (split "--" line) <> 5%nat.

(** The alert an alert line stands for, when its three counters are
    integers. *)
Definition alert_of (line : string) : option AlertRecord :=
  match split "-" line with
  | [_; a; b; c] =>
      s ← parse_int a; l ← parse_int b; t ← parse_int c;
      Some (mkAlert s l t)
  | _ => None
  end.

(** The hour record a closing line stands for, with the alerts that precede
    it, when its five counters are integers. *)
Definition closing_of (alerts : list AlertRecord) (line : string)
  : option TotalsRecord :=
  match split "--" line with
  | [h; a; b; c; d] =>
      h ← parse_int h; ta ← parse_int a; ev ← parse_int b;
      sc ← parse_int c; fw ← parse_int d;
      Some (mkTotals h alerts ta ev sc fw)
  | _ => None
  end.

(** Well-formed lines: the right number of fields, and integer counters. *)
Definition alert_line_ok (line : string) : Prop :=
  is_alert_line line /\ is_Some (alert_of line).

Definition closing_line_ok (line : string) : Prop :=
  is_closing_line line /\ is_Some (closing_of [] line).

(** A group: alert lines and the closing line that follows them. *)
Definition group_lines (g : list string * string) : list string :=
  g.1 ++ [g.2].

Definition group_record (g : list string * string) : option TotalsRecord :=
  alerts ← mapM alert_of g.1; closing_of alerts g.2.

(** A log made of groups, followed by lines that no closing line follows. *)
Definition log_of (groups : list (list string * string))
    (trailing : list string) : list string :=
  concat (group_lines <$> groups) ++ trailing.

(** The number of ['-'] in a line. *)
Fixpoint dashes (s : string) : nat :=
  match s with
  | EmptyString => 0
  | String c r => ((if Ascii.eqb c "-" then 1 else 0) + dashes r)%nat
  end.

(** ** [get_daemons_stats_] *)

(** What [get_daemons_stats_] hands back: the one-element list holding the
    mapping, or the error object that the parsing pass returns (it is
    returned, not raised). *)
Inductive daemons_stats (float : Type) : Type :=
  | Items (items : list (gmap string float))
  | ErrorObject (e : exn).
Arguments Items {float} items.
Arguments ErrorObject {float} e.

Section DaemonsStats.

(** Python floats, and [float(text)]: the number, or the text of the
    [ValueError] that [float] raises. *)
Variable float : Type.
Variable py_float : string -> float + string.

(** [open(filename)] followed by [readlines()], [None] on [IOError]. *)
Variable fs : string -> option string.

(** The [for] loop inside the inner [try]; [inr msg] is an exception whose
    [str(e)] is [msg]. *)
Fixpoint daemons_loop (daemons_data : list string) (items : gmap string float)
  : gmap string float + string :=
  match daemons_data with
  | [] => inl items
  | line :: daemons_data' =>
      if negb (len line =? 1)%nat && negb (contains "#" line) then
        let data := split "=" (drop_last line) in
        match data !! 1%nat with
        | None => inr "list index out of range"
        | Some field =>
            match py_float (strip_ends field) with
            | inr msg => inr msg
            | inl x =>
                match data !! 0%nat with
                | None => inr "list index out of range"
                | Some key => daemons_loop daemons_data' (<[key := x]> items)
                end
            end
        end
      else daemons_loop daemons_data' items
  end.

(** The lines the loop passes over: a single character, or a comment. *)
Definition skipped (line : string) : bool :=
  (len line =? 1)%nat || contains "#" line.

(** A value between two quote characters. *)
Definition quote : ascii := chr 34.
Definition quoted (value : string) : string :=
  String quote (value +:+ String quote "").

(** [line] is [key="value"] followed by a newline (the key is what precedes
    the first ['='], the quoted value what lies between the first and the
    second), and [value] is the text of the float [x]. *)
Definition entry_line (line key : string) (x : float) : Prop :=
  skipped line = false
  /\ exists body value more,
      line = body +:+ NL
      /\ split "=" body = key :: quoted value :: more
      /\ py_float value = inl x.

(** What a line contributes to the mapping: nothing, or one entry. *)
Definition line_entry (line : string) (e : option (string * float)) : Prop :=
  (skipped line = true /\ e = None)
  \/ (exists key x, entry_line line key x /\ e = Some (key, x)).

(** A line on which the parsing pass raises, with the text of the
    exception: there is no ['='] to split on, or [float] rejects the value. *)
Definition broken_line (line msg : string) : Prop :=
  skipped line = false
  /\ ((split "=" (drop_last line) !! 1%nat = None
       /\ msg = "list index out of range")
      \/ (exists field,
            split "=" (drop_last line) !! 1%nat = Some field
            /\ py_float (strip_ends field) = inr msg)).

(** The mapping a sequence of entries builds: a later entry overwrites an
    earlier one with the same key. *)
Definition items_of (entries : list (option (string * float)))
  : gmap string float :=
  foldl (fun m e => <[e.1 := e.2]> m) ∅ (omap id entries).

Definition get_daemons_stats_ (filename : string)
  : result (daemons_stats float) :=
  match fs filename with
  | None => Raise (WazuhError 1308 (Some filename))
  | Some text =>
      match daemons_loop (readlines text) ∅ with
      | inr msg => mret (ErrorObject (WazuhInternalError 1104 (Some msg)))
      | inl items => mret (Items [items])
      end
  end.

End DaemonsStats.

(** ** [get_agents_component_stats_json_] *)

Section AgentsStats.

(** The payload of [Agent.get_stats]. *)
Variable payload : Type.

(** [agent.get_agents_info()]: the identifiers of the known agents. *)
Variable system_agents : gset string.

(** [agent.Agent(agent_id).get_stats(component=component)]. *)
Variable get_stats : string -> string -> result payload.

(** The body of the [try]. *)
Definition attempt (agent_id component : string) : result payload :=
  if bool_decide (agent_id ∉ system_agents)
  then Raise (WazuhResourceNotFound 1701)
  else get_stats agent_id component.

Fixpoint agents_loop (agent_list : list string) (component : string)
    (failed : list (string * exn)) (affected : list payload)
  : result (list (string * exn) * list payload) :=
  match agent_list with
  | [] => mret (failed, affected)
  | agent_id :: agent_list' =>
      match attempt agent_id component with
      | Return stats =>
          agents_loop agent_list' component failed (affected ++ [stats])
      | Raise e =>
          if is_WazuhException e
          then agents_loop agent_list' component
                 (failed ++ [(agent_id, e)]) affected
          else Raise e
      end
  end.

Definition get_agents_component_stats_json_
    (agent_list : list string) (component : string)
  : result (list (string * exn) * list payload) :=
  agents_loop agent_list component [] [].

(** The entry an identifier leaves in [failed], resp. in [affected]. *)
Definition failure_of (component agent_id : string) : option (string * exn) :=
  match attempt agent_id component with
  | Raise e => Some (agent_id, e)
  | Return _ => None
  end.

Definition success_of (component agent_id : string) : option payload :=
  match attempt agent_id component with
  | Raise _ => None
  | Return stats => Some stats
  end.

(** The accessor raises nothing but the platform's own errors. *)
Definition platform_errors_only (agent_list : list string) (component : string)
  : Prop :=
  forall agent_id e,
    agent_id ∈ agent_list -> agent_id ∈ system_agents ->
    get_stats agent_id component = Raise e -> is_WazuhException e = true.

End AgentsStats.

(** ** [get_daemons_stats_from_socket] *)

(** The values [json.loads] builds; numbers are kept as their text. *)
#[local] Unset Elimination Schemes.
Inductive json : Type :=
  | JNull
  | JBool (b : bool)
  | JNumber (text : string)
  | JString (s : string)
  | JArray (l : list json)
  | JObject (m : gmap string json).
#[local] Set Elimination Schemes.

(** What the function does to the socket, in order. *)
Inductive event : Type :=
  | Connect (dest_socket : string)
  | Send (msg : string)
  | Receive
  | Close.

Section Socket.

(** [common.wazuh_path]. *)
Variable wazuh_path : string.

(** The transport: [WazuhSocket(path)] succeeds or raises; [s.send(msg)]
    succeeds or raises; [s.receive().decode()] gives the text of the reply
    or raises. *)
Variable connect : string -> bool.
Variable send : string -> string -> option exn.
Variable receive : string -> string -> result string.

(** [json.loads(text)], [None] when it raises. *)
Variable json_loads : string -> option json.

(** [datetime.strptime(v, "%Y-%m-%d %H:%M:%S").strftime(common.date_format)],
    [None] when [strptime] raises. *)
Variable reformat : string -> option string.

(** Lines 223-236: the destination socket and the command. *)
Definition request (agent_id daemon : string) : result (string * string) :=
  if String.eqb agent_id "" || String.eqb daemon "" then
    Raise (WazuhError 1307 None)
  else
    let sockets_path := path_join (path_join wazuh_path "queue") "sockets" in
    if String.eqb (zfill 3 agent_id) "000" then
      if String.eqb daemon "agent" then Raise (WazuhError 1310 None)
      else mret (path_join sockets_path daemon, "getstate")
    else
      mret (path_join sockets_path "request",
            zfill 3 agent_id +:+ " " +:+ daemon +:+ " getstate").

Definition is_time_key (k : string) : bool :=
  String.eqb k "last_keepalive" || String.eqb k "last_ack".

(** [data.update(... for k, v in data.items() if k in {...})]: the entries
    are visited one by one and [data[k]] is replaced as they are produced. *)
Fixpoint update_loop (items : list (string * json)) (data : gmap string json)
  : option (gmap string json) :=
  match items with
  | [] => Some data
  | (k, _) :: items' =>
      if is_time_key k then
        match data !! k with
        | Some (JString v) =>
            t ← reformat v; update_loop items' (<[k := JString t]> data)
        | _ => None
        end
      else update_loop items' data
  end.

(** The body of the last [try]; [None] when it raises. *)
Definition decode (rec_msg : string) : option (gmap string json) :=
  match json_loads rec_msg with
  | Some (JObject top) =>
      match top !! "data" with
      | Some (JObject data) => update_loop (map_to_list data) data
      | _ => None
      end
  | _ => None
  end.

(** Lines 255-263. *)
Definition format_response (rec_msg : string) : result (gmap string json) :=
  match decode rec_msg with
  | Some data => mret data
  | None =>
      match after_first_space rec_msg with
      | Some msg => Raise (WazuhError 1117 (Some msg))
      | None => Raise IndexError
      end
  end.

(** Lines 238-263, with the socket events performed on the way. *)
Definition exchange (dest_socket command : string)
  : list event * result (gmap string json) :=
  if connect dest_socket then
    match send dest_socket command with
    | Some e => ([Connect dest_socket; Send command], Raise e)
    | None =>
        match receive dest_socket command with
        | Raise e =>
            ([Connect dest_socket; Send command; Receive],
             if is_ValueError e
             then Raise (WazuhInternalError 1118
                           (Some "Data could not be received"))
             else Raise e)
        | Return rec_msg =>
            ([Connect dest_socket; Send command; Receive; Close],
             format_response rec_msg)
        end
    end
  else ([Connect dest_socket], Raise (WazuhInternalError 1121 None)).

Definition get_daemons_stats_from_socket (agent_id daemon : string)
  : list event * result (gmap string json) :=
  match request agent_id daemon with
  | Raise e => ([], Raise e)
  | Return (dest_socket, command) => exchange dest_socket command
  end.

(** [sockets_path] *)
Definition sockets_path : string :=
  path_join (path_join wazuh_path "queue") "sockets".

(** The request of [agent_id] for [daemon] is answered by [rec_msg]: the
    socket opens, the command is sent and the reply is received. *)
Definition replies (agent_id daemon rec_msg : string) : Prop :=
  exists dest_socket command,
    request agent_id daemon = Return (dest_socket, command)
    /\ connect dest_socket = true
    /\ send dest_socket command = None
    /\ receive dest_socket command = Return rec_msg.

(** The value of a timestamp field once reformatted. *)
Definition reformat_value (v : json) : json :=
  match v with
  | JString s =>
      match reformat s with
      | Some t => JString t
      | None => v
      end
  | _ => v
  end.

(** The timestamp fields of [data] are texts that [strptime] accepts. *)
Definition timestamps_parse (data : gmap string json) : Prop :=
  forall k v, is_time_key k = true -> data !! k = Some v ->
    exists s t, v = JString s /\ reformat s = Some t.

End Socket.

(** ** Sample environments

    Concrete collaborators on which the functions can be run: a stats
    directory, a totals log, a daemon state file, an agent inventory and a
    socket transport. *)

Module Sample.

Definition stats_root : string := "/var/ossec/stats".

Definition file_is (path expected content : string) : option string :=
  if String.eqb path expected then Some content else None.

(** Three bucket files are present, all the others are missing. *)
Definition buckets (path : string) : option string :=
  file_is path "/var/ossec/stats/hourly-average/3" ("17" +:+ NL)
  ∪ file_is path "/var/ossec/stats/hourly-average/24" "5"
  ∪ file_is path "/var/ossec/stats/weekly-average/2/7" "42".

(** The same store after two bucket files were damaged. *)
Definition damaged_buckets (path : string) : option string :=
  file_is path "/var/ossec/stats/hourly-average/7" "abc"
  ∪ file_is path "/var/ossec/stats/weekly-average/2/7" "abc"
  ∪ buckets path.

(** A totals log: two alerts and their closing line, then an alert that no
    closing line follows. *)
Definition totals_log : list string :=
  ["1-2-3-4" +:+ NL; "5-6-7-8" +:+ NL; "10--1--2--3--4" +:+ NL;
   "9-9-9-9" +:+ NL].

Definition short_line : string := "11--1--2" +:+ NL.

Definition later_lines : list string := ["12--1--2--3--4" +:+ NL].

(** A float is kept as the pair of its digits and the number of decimals;
    only plain decimal texts are accepted. *)
Fixpoint decimal_go (s : string) (acc : Z) (decimals : option nat)
  : option (Z * nat) :=
  match s with
  | EmptyString => Some (acc, default 0%nat decimals)
  | String c r =>
      match digit_of c with
      | Some d => decimal_go r (10 * acc + d) (S <$> decimals)
      | None =>
          if Ascii.eqb c "." && negb (bool_decide (is_Some decimals))
          then decimal_go r acc (Some 0%nat)
          else None
      end
  end.

Definition decimal (s : string) : Z * nat + string :=
  match s with
  | EmptyString => inr "could not convert string to float: ''"
  | _ =>
      match decimal_go s 0 None with
      | Some x => inl x
      | None => inr ("could not convert string to float: '" +:+ s +:+ "'")
      end
  end.

Definition state_file : string :=
  "# State file for wazuh-remoted" +:+ NL
  +:+ "queue_size=" +:+ quoted "1.5" +:+ NL
  +:+ NL
  +:+ "tcp_sessions=" +:+ quoted "12" +:+ NL.

Definition broken_state_file : string :=
  "queue_size=" +:+ quoted "1.5" +:+ NL
  +:+ "tcp_sessions" +:+ NL.

Definition state_files (path : string) : option string :=
  file_is path "/var/ossec/var/run/wazuh-remoted.state" state_file
  ∪ file_is path "/var/ossec/var/run/broken.state" broken_state_file.

(** Two agents are known; the statistics of the second cannot be fetched. *)
Definition known_agents : gset string := {[ "001"; "002" ]}.

Definition fetch_stats (agent_id component : string) : result string :=
  if String.eqb agent_id "001" then Return ("stats of 001: " +:+ component)
  else Raise (WazuhError 1735 None).

(** A transport on which every socket opens and every command is sent;
    what is received depends on the agent the command names. *)
Definition open_any (dest_socket : string) : bool := true.
Definition send_any (dest_socket msg : string) : option exn := None.

Definition state_reply : string := "{data: state of 001}".
Definition error_reply : string := "err Cannot+connect".
Definition bare_reply : string := "err".

Definition receive_from (dest_socket command : string) : result string :=
  if String.eqb command "001 wazuh-analysisd getstate" then Return state_reply
  else if String.eqb command "002 wazuh-analysisd getstate"
  then Return error_reply
  else if String.eqb command "003 wazuh-analysisd getstate"
  then Return bare_reply
  else Raise ValueError.

Definition state_data : gmap string json :=
  {[ "last_keepalive" := JString "2021-01-01 00:00:00";
     "status" := JString "connected" ]}.

Definition loads (text : string) : option json :=
  if String.eqb text state_reply
  then Some (JObject {[ "error" := JNumber "0"; "data" := JObject state_data ]})
  else None.

Definition to_utc (v : string) : option string :=
  if String.eqb v "2021-01-01 00:00:00" then Some "2021-01-01T00:00:00Z"
  else None.

End Sample.

(** ** Further notions

    Classes of lines and of texts in which the behaviour of the parsers is
    stated below. *)

(** A line of the totals log that holds a ['-']. *)
Definition has_dash (line : string) : bool := negb (dashes line =? 0)%nat.

(** A line of the totals log that is passed over: it is no alert line and
    holds no ["--"]. *)
Definition is_skipped_line (line : string) : Prop :=
  length (split "-" line) <> 4%nat /\ length (split "--" line) = 1%nat.

(** The line [key="value"] of a state file, with its newline. *)
Definition render_entry (key value : string) : string :=
  key +:+ "=" +:+ quoted value +:+ NL.

(** The text of a file, from its lines. *)
Definition join_lines (lines : list string) : string :=
  foldr String.append "" lines.

(** A key or a value that holds no ['='], no ['#'] and no newline. *)
Definition plain (s : string) : bool :=
  negb (contains "=" s) && negb (contains "#" s) && negb (contains newline s).

(** The events of a complete exchange. *)
Definition full_exchange (dest_socket command : string) : list event :=
  [Connect dest_socket; Send command; Receive; Close].

Module MoreSamples.

(** An accessor that fails with an error of its own for agent 002. *)
Definition fetch_or_crash (agent_id component : string) : result string :=
  if String.eqb agent_id "002" then Raise (PyException "KeyError")
  else Return ("stats of " +:+ agent_id).

(** A state file whose last line is not ended by a newline. *)
Definition cut_line : string := "queue_size=" +:+ quoted "1.5".

(** A reply whose timestamp is not in the expected format. *)
Definition stale_reply : string := "{data: state of 005}".

Definition stale_data : gmap string json :=
  {[ "last_keepalive" := JString "yesterday";
     "status" := JString "connected" ]}.

Definition loads_stale (text : string) : option json :=
  if String.eqb text stale_reply
  then Some (JObject {[ "error" := JNumber "0"; "data" := JObject stale_data ]})
  else None.

Definition receive_stale (dest_socket command : string) : result string :=
  Return stale_reply.

(** An error envelope whose message holds spaces. *)
Definition denied_reply : string := "err Agent is not connected".

Definition receive_denied (dest_socket command : string) : result string :=
  Return denied_reply.

(** An accessor that answers for the known agents only. *)
Definition fetch_known_only (agent_id component : string) : result string :=
  if bool_decide (agent_id ∈ Sample.known_agents)
  then Sample.fetch_stats agent_id component
  else Raise (PyException "not to be called").

(** The entries of a state file, and the store that holds the file and a
    copy whose last line lost its newline. *)
Definition state_entries : list (string * string * (Z * nat)) :=
  [("queue_size", "1.5", (15, 1%nat)); ("tcp_sessions", "12", (12, 0%nat));
   ("queue_size", "2.25", (225, 2%nat))].

Definition entries_text : string :=
  join_lines ((fun e => render_entry e.1.1 e.1.2) <$> state_entries).

Definition entries_files (path : string) : option string :=
  Sample.file_is path "/var/ossec/var/run/wazuh-analysisd.state" entries_text
  ∪ Sample.file_is path "/var/ossec/var/run/cut.state"
      (entries_text +:+ "events=" +:+ quoted "1.5").

(** A log of four lines and the two lines that follow it. *)
Definition next_hour : list string :=
  ["12--1--2--3--4" +:+ NL; "7-7-7-7" +:+ NL].

End MoreSamples.

(** The two timestamp fields of a reply, by name: when present, each is a
    text that [strptime] accepts. *)
Definition timestamp_texts (reformat : string -> option string)
    (data : gmap string json) : Prop :=
  forall k v, k = "last_keepalive" \/ k = "last_ack" ->
    data !! k = Some v -> exists s t, v = JString s /\ reformat s = Some t.

(** What a call does when it addresses [command] to [dest_socket]: that
    socket is the one it opens; once it is open, [command] is what is sent
    on it; when it does not open, the call stops there with
    [WazuhInternalError(1121)]; and no other socket or command occurs. *)
Definition sent_to (connect : string -> bool) (dest_socket command : string)
    (outcome : list event * result (gmap string json)) : Prop :=
  (exists rest, outcome.1 = Connect dest_socket :: rest)
  /\ (connect dest_socket = true ->
      exists rest, outcome.1 = Connect dest_socket :: Send command :: rest)
  /\ (connect dest_socket = false ->
      outcome = ([Connect dest_socket], Raise (WazuhInternalError 1121 None)))
  /\ (forall ev, ev ∈ outcome.1 ->
        ev ∈ [Connect dest_socket; Send command; Receive; Close]).

Module ReplySamples.

(** A reply that holds both timestamps and two other fields. *)
Definition acked_reply : string := "{data: state of 009}".

Definition acked_data : gmap string json :=
  {[ "last_keepalive" := JString "2021-01-01 00:00:00";
     "last_ack" := JString "2021-01-01 00:00:05";
     "status" := JString "connected";
     "msg_count" := JNumber "12" ]}.

Definition loads_acked (text : string) : option json :=
  if String.eqb text acked_reply
  then Some (JObject {[ "error" := JNumber "0"; "data" := JObject acked_data ]})
  else None.

Definition receive_acked (dest_socket command : string) : result string :=
  if String.eqb command "009 wazuh-remoted getstate" then Return acked_reply
  else Return "err Agent is not connected".

Definition to_utc_seconds (v : string) : option string :=
  if String.eqb v "2021-01-01 00:00:00" then Some "2021-01-01T00:00:00Z"
  else if String.eqb v "2021-01-01 00:00:05" then Some "2021-01-01T00:00:05Z"
  else None.

(** A log whose third line has a counter that is no integer. *)
Definition spoiled_log : list string :=
  ["1-2-3-4" +:+ NL; "10--1--2--3--4" +:+ NL; "5-six-7-8" +:+ NL;
   "11--1--2--3--4" +:+ NL].

End ReplySamples.


(** * Verification *)

Ltac res_simpl :=
  repeat first
    [ progress cbn [mbind mret result_bind result_ret bind] in *
    | progress unfold mbind, mret, result_bind, result_ret in * ].

(** ** The averages *)

Section AveragesFacts.

Variable stats_path : string.
Variable fs : string -> option string.

Lemma bucket_step_raises dir st i e :
  bucket_step fs dir st i = Raise e -> e = ValueError.
Proof.
  destruct st as [averages interactions]. unfold bucket_step, int.
  destruct (fs (bucket_file dir i)) as [data|];
    [destruct (parse_int data)|]; repeat case_match; res_simpl; congruence.
Qed.

Lemma bucket_step_bad dir st i data :
  fs (bucket_file dir i) = Some data -> parse_int data = None ->
  bucket_step fs dir st i = Raise ValueError.
Proof.
  intros Hfile Hbad. destruct st as [averages interactions].
  unfold bucket_step, int. rewrite Hfile, Hbad.
  case_match; reflexivity.
Qed.

Lemma bucket_step_ok dir averages interactions i :
  (i < 24)%nat ->
  (forall data, fs (bucket_file dir i) = Some data -> is_Some (parse_int data)) ->
  bucket_step fs dir (averages, interactions) i
  = Return (averages ++ [bucket_value fs dir i], interactions).
Proof.
  intros Hi Hparse. unfold bucket_step, bucket_value, int.
  assert (Hne : (i =? 24)%nat = false) by (apply Nat.eqb_neq; lia).
  assert (Hlt : (i <? 24)%nat = true) by (apply Nat.ltb_lt; lia).
  rewrite Hne, Hlt.
  destruct (fs (bucket_file dir i)) as [data|]; [|reflexivity].
  destruct (Hparse data eq_refl) as [v ->]. reflexivity.
Qed.

Lemma bucket_step_last dir averages interactions :
  (forall data, fs (bucket_file dir 24) = Some data -> is_Some (parse_int data)) ->
  bucket_step fs dir (averages, interactions) 24
  = Return (averages, bucket_value fs dir 24).
Proof.
  intros Hparse. unfold bucket_step, bucket_value, int.
  change (24 =? 24)%nat with true. change (24 <? 24)%nat with false.
  destruct (fs (bucket_file dir 24)) as [data|]; [|reflexivity].
  destruct (Hparse data eq_refl) as [v ->]. reflexivity.
Qed.

Lemma bucket_loop_raises dir range st e :
  bucket_loop fs dir range st = Raise e -> e = ValueError.
Proof.
  revert st. induction range as [|i range IH]; intros st; cbn [bucket_loop].
  - res_simpl. discriminate.
  - destruct (bucket_step fs dir st i) as [st'|e'] eqn:Hstep; res_simpl.
    + apply IH.
    + intros [= <-]. eapply bucket_step_raises, Hstep.
Qed.

Lemma bucket_loop_bad dir range st i data :
  i ∈ range ->
  fs (bucket_file dir i) = Some data -> parse_int data = None ->
  bucket_loop fs dir range st = Raise ValueError.
Proof.
  intros Hin Hfile Hbad. revert st.
  induction range as [|k range IH]; intros st.
  - by apply elem_of_nil in Hin.
  - cbn [bucket_loop].
    destruct (bucket_step fs dir st k) as [st'|e'] eqn:Hstep; res_simpl.
    + apply elem_of_cons in Hin as [->|Hin]; [|by apply IH].
      rewrite (bucket_step_bad _ _ _ _ Hfile Hbad) in Hstep. discriminate.
    + f_equal. eapply bucket_step_raises, Hstep.
Qed.

Lemma bucket_loop_ok dir range averages interactions :
  Forall (fun i => (i < 24)%nat) range ->
  buckets_parse fs dir ->
  bucket_loop fs dir range (averages, interactions)
  = Return (averages ++ (bucket_value fs dir <$> range), interactions).
Proof.
  intros Hrange Hparse. revert averages.
  induction Hrange as [|i range Hi _ IH]; intros averages; cbn [bucket_loop];
    [rewrite fmap_nil|rewrite fmap_cons].
  - res_simpl. by rewrite app_nil_r.
  - rewrite bucket_step_ok; [|done|intros data; apply Hparse; lia].
    res_simpl. rewrite IH. by rewrite <- app_assoc.
Qed.

Lemma buckets_parseb_correct dir :
  buckets_parseb fs dir = true -> buckets_parse fs dir.
Proof.
  unfold buckets_parseb. rewrite forallb_forall. intros Hall i data Hi Hfile.
  specialize (Hall i). rewrite Hfile in Hall.
  eapply bool_decide_eq_true_1, Hall. apply in_seq. lia.
Qed.

Lemma seq_25 : seq 0 25 = seq 0 24 ++ [24%nat].
Proof. reflexivity. Qed.

Lemma bucket_loop_app dir r1 r2 st :
  bucket_loop fs dir (r1 ++ r2) st
  = st' ← bucket_loop fs dir r1 st; bucket_loop fs dir r2 st'.
Proof.
  revert st. induction r1 as [|i r1 IH]; intros st; cbn [bucket_loop app].
  - reflexivity.
  - res_simpl. destruct (bucket_step fs dir st i); cbn; [apply IH|reflexivity].
Qed.

(** One directory of 25 bucket files whose readable files hold integers. *)
Lemma bucket_dir_ok dir :
  buckets_parse fs dir ->
  bucket_loop fs dir (seq 0 25) ([], 0)
  = Return (bucket_value fs dir <$> seq 0 24, bucket_value fs dir 24).
Proof.
  intros Hparse. rewrite seq_25, bucket_loop_app.
  rewrite bucket_loop_ok; [|apply Forall_forall; intros i Hi;
    apply list_elem_of_In, in_seq in Hi; lia|done].
  res_simpl. cbn [bucket_loop]. rewrite bucket_step_last.
  - reflexivity.
  - intros data. apply Hparse. lia.
Qed.

Lemma bucket_values_missing dir i :
  (i < 24)%nat -> fs (bucket_file dir i) = None ->
  (bucket_value fs dir <$> seq 0 24) !! i = Some 0.
Proof.
  intros Hi Hnone.
  rewrite list_lookup_fmap, lookup_seq_lt by done. cbn.
  unfold bucket_value. by rewrite Hnone.
Qed.

Lemma index_DAYS i :
  (i < 7)%nat -> exists d, DAYS !! i = Some d /\ index DAYS i = Return d.
Proof.
  intros Hi. unfold index.
  destruct (lookup_lt_is_Some_2 DAYS i) as [d Hd]; [cbn; lia|].
  exists d. by rewrite Hd.
Qed.

Lemma weekly_loop_raises range acc e :
  Forall (fun i => (i < 7)%nat) range ->
  weekly_loop stats_path fs range acc = Raise e -> e = ValueError.
Proof.
  intros Hrange. revert acc.
  induction Hrange as [|i range Hi _ IH]; intros acc; cbn [weekly_loop].
  - res_simpl. discriminate.
  - destruct (bucket_loop fs _ _ _) as [st|e'] eqn:Hdir; res_simpl.
    + destruct (index_DAYS i Hi) as (d & _ & ->). apply IH.
    + intros [= <-]. eapply bucket_loop_raises, Hdir.
Qed.

Lemma weekly_loop_bad range acc d j data :
  Forall (fun i => (i < 7)%nat) range -> d ∈ range -> (j < 25)%nat ->
  fs (bucket_file (weekly_dir stats_path d) j) = Some data ->
  parse_int data = None ->
  weekly_loop stats_path fs range acc = Raise ValueError.
Proof.
  intros Hrange Hin Hj Hfile Hbad. revert acc.
  induction Hrange as [|i range Hi _ IH]; intros acc.
  - by apply elem_of_nil in Hin.
  - cbn [weekly_loop].
    destruct (bucket_loop fs _ _ _) as [st|e'] eqn:Hdir; res_simpl.
    + destruct (index_DAYS i Hi) as (dn & _ & ->).
      apply elem_of_cons in Hin as [->|Hin]; [|by apply IH].
      rewrite (bucket_loop_bad _ _ _ j data) in Hdir; try done.
      apply list_elem_of_In, in_seq. lia.
    + f_equal. eapply bucket_loop_raises, Hdir.
Qed.

Lemma weekly_loop_ok range acc :
  Forall (fun i => (i < 7)%nat) range ->
  (forall i, i ∈ range -> buckets_parse fs (weekly_dir stats_path i)) ->
  weekly_loop stats_path fs range acc
  = Return (acc ++ (weekly_entry stats_path fs <$> range)).
Proof.
  intros Hrange. revert acc.
  induction Hrange as [|i range Hi _ IH]; intros acc Hparse; cbn [weekly_loop];
    [rewrite fmap_nil|rewrite fmap_cons].
  - res_simpl. by rewrite app_nil_r.
  - rewrite bucket_dir_ok by (apply Hparse; left). res_simpl.
    destruct (index_DAYS i Hi) as (d & Hd & ->). res_simpl.
    rewrite IH by (intros k Hk; apply Hparse; by right).
    rewrite <- app_assoc. unfold weekly_entry at 2. by rewrite Hd.
Qed.

(** C7: whatever bucket files are missing, as long as the files that can be
    read hold integers, [hourly_] and [weekly_] return; every record has
    exactly 24 averages (resp. hours); every missing bucket counts 0 and a
    missing interactions file gives 0 interactions.  What [hourly_] returns
    depends on its own 25 files only, and what [weekly_] returns on the
    files of the seven days. *)
Theorem averages_zero_filled :
  (buckets_parse fs (hourly_dir stats_path) ->
   exists h,
     hourly_ stats_path fs = Return [h]
     /\ length (averages h) = 24%nat
     /\ (forall i, (i < 24)%nat ->
           fs (bucket_file (hourly_dir stats_path) i) = None ->
           averages h !! i = Some 0)
     /\ (fs (bucket_file (hourly_dir stats_path) 24) = None ->
         interactions h = 0))
  /\ ((forall i, (i < 7)%nat -> buckets_parse fs (weekly_dir stats_path i)) ->
      exists ws,
        weekly_ stats_path fs = Return ws
        /\ length ws = 7%nat
        /\ forall i, (i < 7)%nat ->
             exists w,
               ws !! i = Some w
               /\ DAYS !! i = Some (day w)
               /\ length (hours w) = 24%nat
               /\ (forall j, (j < 24)%nat ->
                     fs (bucket_file (weekly_dir stats_path i) j) = None ->
                     hours w !! j = Some 0)
               /\ (fs (bucket_file (weekly_dir stats_path i) 24) = None ->
                   week_interactions w = 0)).
Proof.
  split.
  - intros Hhourly. eexists. unfold hourly_. rewrite bucket_dir_ok by done.
    res_simpl.
    split; [reflexivity|]. cbn [averages interactions fst snd].
    split; [by rewrite length_fmap, length_seq|].
    split; [intros i Hi Hnone; by apply bucket_values_missing|].
    intros Hnone. unfold bucket_value. by rewrite Hnone.
  - intros Hweekly. eexists. unfold weekly_.
    rewrite weekly_loop_ok;
      [|apply Forall_forall; intros i Hi; apply list_elem_of_In, in_seq in Hi; lia
       |intros i Hi; apply Hweekly; apply list_elem_of_In, in_seq in Hi; lia].
    split; [reflexivity|]. rewrite app_nil_l.
    split; [by rewrite length_fmap, length_seq|].
    intros i Hi. exists (weekly_entry stats_path fs i).
    split; [by rewrite list_lookup_fmap, lookup_seq_lt|].
    destruct (index_DAYS i Hi) as (d & Hd & _).
    cbn [weekly_entry day hours week_interactions].
    split; [by rewrite Hd|].
    split; [by rewrite length_fmap, length_seq|].
    split; [intros j Hj Hnone; by apply bucket_values_missing|].
    intros Hnone. unfold bucket_value. by rewrite Hnone.
Qed.

(** C10: a bucket file that can be read but does not hold an integer is not
    defaulted to 0: the [ValueError] of the conversion leaves [hourly_]
    (resp. [weekly_]) uncaught. *)
Theorem unparsable_bucket_raises i data :
  (i < 25)%nat -> parse_int data = None ->
  (fs (bucket_file (hourly_dir stats_path) i) = Some data ->
   hourly_ stats_path fs = Raise ValueError)
  /\ (forall d, (d < 7)%nat ->
        fs (bucket_file (weekly_dir stats_path d) i) = Some data ->
        weekly_ stats_path fs = Raise ValueError).
Proof.
  intros Hi Hbad. split.
  - intros Hfile. unfold hourly_.
    rewrite (bucket_loop_bad _ _ _ i data); try done.
    apply list_elem_of_In, in_seq. lia.
  - intros d Hd Hfile. unfold weekly_.
    apply (weekly_loop_bad _ _ d i data); try done.
    + apply Forall_forall. intros k Hk.
      apply list_elem_of_In, in_seq in Hk. lia.
    + apply list_elem_of_In, in_seq. lia.
Qed.

(** The zero default is tied to the failure to read: a bucket that can be
    read contributes the integer it holds. *)
Lemma bucket_value_read dir i data v :
  fs (bucket_file dir i) = Some data -> parse_int data = Some v ->
  bucket_value fs dir i = v.
Proof. intros Hfile Hv. unfold bucket_value. by rewrite Hfile, Hv. Qed.

End AveragesFacts.

(** ** The totals log *)

Section TotalsFacts.

(** *** Fields and dashes *)

Lemma prefix_cons a s1 b s2 :
  String.prefix (String a s1) (String b s2)
  = if ascii_dec a b then String.prefix s1 s2 else false.
Proof. reflexivity. Qed.

Lemma prefix_empty s : String.prefix "" s = true.
Proof. by destruct s. Qed.

Lemma prefix_dash c r :
  String.prefix "-" (String c r) = Ascii.eqb c "-".
Proof.
  rewrite prefix_cons, prefix_empty. destruct (ascii_dec "-" c) as [<-|Hne].
  - by rewrite Ascii.eqb_refl.
  - symmetry. apply Ascii.eqb_neq. congruence.
Qed.

Lemma split_dash_length s cur :
  length (split_go "-" s 0 cur) = S (dashes s).
Proof.
  revert cur. induction s as [|c r IH]; intros cur; [reflexivity|].
  cbn [split_go dashes]. rewrite prefix_dash.
  destruct (Ascii.eqb c "-"); cbn [length len String.length Nat.sub];
    rewrite IH; lia.
Qed.

Lemma prefix_dashes_inv s :
  String.prefix "--" s = true -> exists r, s = String "-" (String "-" r).
Proof.
  destruct s as [|c [|d r]]; [discriminate| |].
  - rewrite prefix_cons. destruct (ascii_dec "-" c); discriminate.
  - rewrite !prefix_cons.
    destruct (ascii_dec "-" c) as [<-|]; [|discriminate].
    destruct (ascii_dec "-" d) as [<-|]; [|discriminate]. by exists r.
Qed.

Lemma split_dashes_length n s cur :
  (String.length s <= n)%nat ->
  (2 * length (split_go "--" s 0 cur) <= 2 + dashes s)%nat.
Proof.
  revert s cur. induction n as [|n IH]; intros s cur Hlen.
  - destruct s; [cbn; lia|cbn in Hlen; lia].
  - destruct s as [|c r]; [cbn; lia|]. cbn [split_go].
    destruct (String.prefix "--" (String c r)) eqn:Hpre.
    + apply prefix_dashes_inv in Hpre as [r' [= -> ->]].
      cbn [len String.length Nat.sub split_go length dashes].
      specialize (IH r' ""). cbn in Hlen.
      rewrite Ascii.eqb_refl. lia.
    + specialize (IH r (String c cur)). cbn in Hlen. cbn [dashes]. lia.
Qed.

(** A closing line has at least eight dashes, so that the test on the
    [split('-')] fields never takes it for an alert. *)
Lemma closing_line_not_alert line :
  is_closing_line line -> ~ is_alert_line line.
Proof.
  unfold is_closing_line, is_alert_line, split. intros Hfive Hfour.
  pose proof (split_dashes_length (String.length line) line "" (Nat.le_refl _)).
  rewrite split_dash_length in Hfour. lia.
Qed.

(** *** One line *)

Lemma int_parse field v : parse_int field = Some v -> int field = Return v.
Proof. unfold int. by intros ->. Qed.

Lemma alert_of_is_alert line a : alert_of line = Some a -> is_alert_line line.
Proof.
  unfold alert_of, is_alert_line.
  destruct (split "-" line) as [|? [|? [|? [|? [|? ?]]]]]; by try discriminate.
Qed.

Lemma closing_of_is_closing alerts line r :
  closing_of alerts line = Some r -> is_closing_line line.
Proof.
  unfold closing_of, is_closing_line.
  destruct (split "--" line) as [|? [|? [|? [|? [|? [|? ?]]]]]];
    by try discriminate.
Qed.

Lemma totals_line_alert line a alerts affected :
  alert_of line = Some a ->
  totals_line line alerts affected = Return (Next (alerts ++ [a]) affected).
Proof.
  unfold alert_of, totals_line.
  destruct (split "-" line) as [|f0 [|f1 [|f2 [|f3 [|? ?]]]]]; try discriminate.
  cbn [length Nat.eqb index lookup list_lookup]. res_simpl. unfold int.
  destruct (parse_int f1); [|discriminate].
  destruct (parse_int f2); [|discriminate].
  destruct (parse_int f3); [|discriminate].
  cbn. by intros [= <-].
Qed.

Lemma totals_line_closing line r alerts affected :
  closing_of alerts line = Some r ->
  totals_line line alerts affected = Return (Next [] (affected ++ [r])).
Proof.
  intros Hrec.
  pose proof (closing_line_not_alert _ (closing_of_is_closing _ _ _ Hrec)) as Hna.
  revert Hrec. unfold closing_of, totals_line.
  apply Nat.eqb_neq in Hna. unfold is_alert_line in Hna. rewrite Hna.
  destruct (split "--" line) as [|f0 [|f1 [|f2 [|f3 [|f4 [|? ?]]]]]];
    try discriminate.
  cbn [length Nat.eqb negb index lookup list_lookup]. res_simpl. unfold int.
  destruct (parse_int f0); [|discriminate].
  destruct (parse_int f1); [|discriminate].
  destruct (parse_int f2); [|discriminate].
  destruct (parse_int f3); [|discriminate].
  destruct (parse_int f4); [|discriminate].
  cbn. by intros [= <-].
Qed.

(** A line with a wrong number of fields stops the loop without any
    conversion being attempted: nothing is raised on it. *)
Lemma totals_line_malformed line alerts affected :
  is_malformed_line line ->
  totals_line line alerts affected = Return (Done true affected).
Proof.
  intros (Hna & H0 & H1 & H5). unfold totals_line.
  apply Nat.eqb_neq in Hna, H0, H1, H5. by rewrite Hna, H0, H1, H5.
Qed.

(** A 4-field line one of whose counters is no integer raises. *)
Lemma totals_line_alert_bad line alerts affected :
  is_alert_line line -> alert_of line = None ->
  totals_line line alerts affected = Raise ValueError.
Proof.
  unfold is_alert_line, alert_of, totals_line.
  destruct (split "-" line) as [|f0 [|f1 [|f2 [|f3 [|? ?]]]]]; try discriminate.
  intros _. cbn [length Nat.eqb index lookup list_lookup]. res_simpl.
  unfold int.
  destruct (parse_int f1); [|done].
  destruct (parse_int f2); [|done].
  destruct (parse_int f3); [|done]. discriminate.
Qed.

(** *** Runs of lines *)

Lemma totals_loop_scan pre rest alerts affected :
  totals_loop (pre ++ rest) alerts affected
  = f ← totals_scan pre alerts affected;
    match f with
    | Next alerts' affected' => totals_loop rest alerts' affected'
    | Done failed affected' => mret (failed, affected')
    end.
Proof.
  revert alerts affected.
  induction pre as [|line pre IH]; intros alerts affected; [reflexivity|].
  cbn [app totals_loop totals_scan]. res_simpl.
  destruct (totals_line line alerts affected) as [[a' b'|fl b']|e]; cbn;
    [apply IH|reflexivity|reflexivity].
Qed.

Lemma totals_scan_app pre rest alerts affected :
  totals_scan (pre ++ rest) alerts affected
  = f ← totals_scan pre alerts affected;
    match f with
    | Next alerts' affected' => totals_scan rest alerts' affected'
    | Done failed affected' => mret (Done failed affected')
    end.
Proof.
  revert alerts affected.
  induction pre as [|line pre IH]; intros alerts affected; [reflexivity|].
  cbn [app totals_scan]. res_simpl.
  destruct (totals_line line alerts affected) as [[a' b'|fl b']|e]; cbn;
    [apply IH|reflexivity|reflexivity].
Qed.

Lemma totals_scan_alerts lines recs alerts affected :
  Forall2 (fun l a => alert_of l = Some a) lines recs ->
  totals_scan lines alerts affected = Return (Next (alerts ++ recs) affected).
Proof.
  intros Hall. revert alerts.
  induction Hall as [|l a lines recs Hl _ IH]; intros alerts; cbn [totals_scan].
  - res_simpl. by rewrite app_nil_r.
  - rewrite (totals_line_alert _ _ _ _ Hl). res_simpl.
    rewrite IH. by rewrite <- app_assoc.
Qed.

Lemma totals_scan_group g r affected :
  group_record g = Some r ->
  totals_scan (group_lines g) [] affected = Return (Next [] (affected ++ [r])).
Proof.
  destruct g as [lines closing]. unfold group_record, group_lines. cbn [fst snd].
  destruct (mapM alert_of lines) as [recs|] eqn:Hrecs; [|discriminate].
  cbn. intros Hclosing. apply mapM_Some in Hrecs.
  rewrite totals_scan_app, (totals_scan_alerts _ _ _ _ Hrecs). res_simpl.
  cbn [totals_scan]. rewrite (totals_line_closing _ _ _ _ Hclosing).
  reflexivity.
Qed.

Lemma totals_scan_groups groups recs affected :
  Forall2 (fun g r => group_record g = Some r) groups recs ->
  totals_scan (concat (group_lines <$> groups)) [] affected
  = Return (Next [] (affected ++ recs)).
Proof.
  intros Hall. revert affected.
  induction Hall as [|g r groups recs Hg _ IH]; intros affected.
  - cbn. res_simpl. by rewrite app_nil_r.
  - rewrite fmap_cons. cbn [concat].
    rewrite totals_scan_app, (totals_scan_group _ _ _ Hg). res_simpl.
    rewrite IH. by rewrite <- app_assoc.
Qed.

Lemma totals_scan_log groups recs trailing pending :
  Forall2 (fun g r => group_record g = Some r) groups recs ->
  Forall2 (fun l a => alert_of l = Some a) trailing pending ->
  totals_scan (log_of groups trailing) [] [] = Return (Next pending recs).
Proof.
  intros Hgroups Htrailing. unfold log_of.
  rewrite totals_scan_app, (totals_scan_groups _ _ _ Hgroups). res_simpl.
  by rewrite (totals_scan_alerts _ _ _ _ Htrailing).
Qed.

(** *** Logs of well-formed lines *)

Lemma closing_of_alerts alerts alerts' line r :
  closing_of alerts line = Some r ->
  closing_of alerts' line
  = Some (mkTotals (hour r) alerts' (totalAlerts r) (events r)
            (syscheck r) (firewall r)).
Proof.
  unfold closing_of.
  destruct (split "--" line) as [|f0 [|f1 [|f2 [|f3 [|f4 [|? ?]]]]]];
    try discriminate.
  destruct (parse_int f0); [|discriminate].
  destruct (parse_int f1); [|discriminate].
  destruct (parse_int f2); [|discriminate].
  destruct (parse_int f3); [|discriminate].
  destruct (parse_int f4); [|discriminate].
  cbn. by intros [= <-].
Qed.

Lemma group_record_shape g r :
  group_record g = Some r ->
  Forall is_alert_line g.1 /\ is_closing_line g.2
  /\ mapM alert_of g.1 = Some (alerts r).
Proof.
  destruct g as [lines closing]. unfold group_record. cbn [fst snd].
  destruct (mapM alert_of lines) as [recs|] eqn:Hrecs; [|discriminate].
  cbn. intros Hclosing. split; [|split].
  - apply mapM_Some in Hrecs. clear Hclosing.
    induction Hrecs as [|l a ls rs Hl _ IH]; constructor;
      eauto using alert_of_is_alert.
  - eauto using closing_of_is_closing.
  - rewrite (closing_of_alerts _ recs _ _ Hclosing) in Hclosing.
    by injection Hclosing as <-.
Qed.

Lemma group_record_cons l a lines closing r :
  alert_of l = Some a ->
  group_record (lines, closing) = Some r ->
  group_record (l :: lines, closing)
  = Some (mkTotals (hour r) (a :: alerts r) (totalAlerts r) (events r)
            (syscheck r) (firewall r)).
Proof.
  intros Hl Hg.
  destruct (group_record_shape _ _ Hg) as (_ & _ & Hrecs).
  cbn [fst snd] in Hrecs.
  revert Hg. unfold group_record. cbn [fst snd mapM].
  rewrite Hl, Hrecs. cbn. apply closing_of_alerts.
Qed.

(** A log of well-formed lines is a sequence of groups followed by alert
    lines that no closing line follows. *)
Lemma well_formed_log_groups stats :
  Forall (fun l => alert_line_ok l \/ closing_line_ok l) stats ->
  exists groups trailing recs pending,
    stats = log_of groups trailing
    /\ Forall2 (fun g r => group_record g = Some r) groups recs
    /\ Forall2 (fun l a => alert_of l = Some a) trailing pending.
Proof.
  induction 1 as [|l stats Hl _ IH].
  - exists [], [], [], []. repeat split; constructor.
  - destruct IH as (groups & trailing & recs & pending & -> & Hgroups & Htrail).
    destruct Hl as [[_ [a Ha]]|[_ [r Hr]]].
    + destruct Hgroups as [|[lines closing] r groups recs Hg Hgroups].
      * exists [], (l :: trailing), [], (a :: pending).
        repeat split; by constructor.
      * eexists ((l :: lines, closing) :: groups), trailing, (_ :: recs), pending.
        split; [reflexivity|]. split; [|done].
        constructor; [|done]. by apply group_record_cons.
    + exists (([], l) :: groups), trailing, (r :: recs), pending.
      split; [reflexivity|]. split; [|done].
      constructor; [|done]. unfold group_record. cbn. exact Hr.
Qed.

(** C1: on a log whose lines are all 4-field alert lines or 5-field closing
    lines (with integer counters), the parser reports no failure and returns
    one record per closing line, in the order of the file; the alerts of a
    record are those of the alert lines between the previous closing line
    and its own; the alert lines after the last closing line are in no
    record. *)
Theorem totals_well_formed_log stats :
  Forall (fun l => alert_line_ok l \/ closing_line_ok l) stats ->
  exists groups trailing recs,
    stats = log_of groups trailing
    /\ Forall (fun g => Forall is_alert_line g.1 /\ is_closing_line g.2) groups
    /\ Forall is_alert_line trailing
    /\ Forall2 (fun g r =>
                  mapM alert_of g.1 = Some (alerts r)
                  /\ closing_of (alerts r) g.2 = Some r) groups recs
    /\ totals_loop stats [] [] = Return (false, recs).
Proof.
  intros Hlines.
  destruct (well_formed_log_groups _ Hlines)
    as (groups & trailing & recs & pending & -> & Hgroups & Htrail).
  clear Hlines. exists groups, trailing, recs. split; [reflexivity|].
  split; [|split; [|split]].
  - induction Hgroups as [|g r gs rs Hg _ IH]; [constructor|].
    constructor; [|done].
    destruct (group_record_shape _ _ Hg) as (? & ? & _). done.
  - induction Htrail; constructor; eauto using alert_of_is_alert.
  - induction Hgroups as [|g r gs rs Hg _ IH]; [constructor|].
    constructor; [|done].
    destruct (group_record_shape _ _ Hg) as (_ & _ & Hrecs).
    split; [done|]. revert Hg. unfold group_record. by rewrite Hrecs.
  - rewrite <- (app_nil_r (log_of groups trailing)), totals_loop_scan.
    by rewrite (totals_scan_log _ _ _ _ Hgroups Htrail).
Qed.

(** The same for a log given by its groups: the records are those of the
    groups, whatever alert lines follow the last closing line. *)
Lemma totals_groups groups trailing recs pending :
  Forall2 (fun g r => group_record g = Some r) groups recs ->
  Forall2 (fun l a => alert_of l = Some a) trailing pending ->
  totals_loop (log_of groups trailing) [] [] = Return (false, recs)
  /\ length recs = length groups.
Proof.
  intros Hgroups Htrail. split.
  - rewrite <- (app_nil_r (log_of groups trailing)), totals_loop_scan.
    by rewrite (totals_scan_log _ _ _ _ Hgroups Htrail).
  - symmetry. eapply Forall2_length, Hgroups.
Qed.

(** The loop stops on a malformed line with the records it holds. *)
Lemma totals_loop_stops pre line post alerts0 affected0 pending affected :
  totals_scan pre alerts0 affected0 = Return (Next pending affected) ->
  is_malformed_line line ->
  totals_loop (pre ++ line :: post) alerts0 affected0 = Return (true, affected).
Proof.
  intros Hpre Hbad. rewrite totals_loop_scan, Hpre. res_simpl.
  cbn [totals_loop]. by rewrite (totals_line_malformed _ _ _ Hbad).
Qed.

(** C2: when the loop reaches a line that is no alert line and that
    [split('--')] cuts into 2, 3, 4 or more than 5 fields, it stops there:
    the function returns [failed = True] with the records accumulated from
    the lines before it, and raises nothing. *)
Theorem totals_malformed_line pre line post pending affected :
  totals_scan pre [] [] = Return (Next pending affected) ->
  is_malformed_line line ->
  totals_loop (pre ++ line :: post) [] [] = Return (true, affected).
Proof. apply totals_loop_stops. Qed.

(** In particular after a well-formed log: the records are those of its
    groups. *)
Lemma totals_malformed_after_groups groups trailing recs pending line post :
  Forall2 (fun g r => group_record g = Some r) groups recs ->
  Forall2 (fun l a => alert_of l = Some a) trailing pending ->
  is_malformed_line line ->
  totals_loop (log_of groups trailing ++ line :: post) [] []
  = Return (true, recs).
Proof.
  intros Hgroups Htrail. apply totals_loop_stops with pending.
  by apply totals_scan_log.
Qed.

(** Through [totals_]: the file that cannot be opened raises
    [WazuhError(1308)] with its path, the file that can be read is parsed
    line by line. *)
Lemma totals_reads_file stats_path fs d name :
  stat_filename stats_path d = Return name ->
  totals_ stats_path fs d
  = match fs name with
    | None => Raise (WazuhError 1308 (Some name))
    | Some text => totals_loop (readlines text) [] []
    end.
Proof. unfold totals_. by intros ->. Qed.

(** Lines that [split('--')] leaves whole are passed over. *)
Lemma totals_line_skip line alerts affected :
  length (split "-" line) <> 4%nat -> length (split "--" line) = 1%nat ->
  totals_line line alerts affected = Return (Next alerts affected).
Proof.
  intros Hna H1. unfold totals_line.
  apply Nat.eqb_neq in Hna. by rewrite Hna, H1.
Qed.

End TotalsFacts.

(** ** The agents' component statistics *)

Section AgentsFacts.

Variable payload : Type.
Variable system_agents : gset string.
Variable get_stats : string -> string -> result payload.

#[local] Abbreviation try_agent := (attempt payload system_agents get_stats).
#[local] Abbreviation failure := (failure_of payload system_agents get_stats).
#[local] Abbreviation success := (success_of payload system_agents get_stats).
#[local] Abbreviation loop := (agents_loop payload system_agents get_stats).
#[local] Abbreviation platform_only :=
  (platform_errors_only payload system_agents get_stats).

Lemma attempt_platform_error agent_list component agent_id e :
  platform_only agent_list component ->
  agent_id ∈ agent_list ->
  try_agent agent_id component = Raise e -> is_WazuhException e = true.
Proof.
  intros Hplat Hin. unfold attempt. case_bool_decide as Hknown.
  - by intros [= <-].
  - by apply Hplat.
Qed.

Lemma agents_loop_partition agent_list component failed affected :
  platform_only agent_list component ->
  loop agent_list component failed affected
  = Return (failed ++ omap (failure component) agent_list,
            affected ++ omap (success component) agent_list).
Proof.
  revert failed affected.
  induction agent_list as [|agent_id agent_list IH]; intros failed affected Hplat.
  - cbn. by rewrite !app_nil_r.
  - assert (Htail : platform_only agent_list component).
    { intros a e Ha. apply Hplat. by right. }
    cbn [agents_loop omap list_omap].
    unfold failure_of at 1, success_of at 1.
    destruct (try_agent agent_id component) as [stats|e] eqn:Htry.
    + rewrite IH by done. by rewrite <- app_assoc.
    + rewrite (attempt_platform_error _ _ _ _ Hplat (list_elem_of_here _ _) Htry).
      rewrite IH by done. by rewrite <- app_assoc.
Qed.

Lemma partition_lengths component (agent_list : list string) :
  (length (omap (failure component) agent_list)
   + length (omap (success component) agent_list))%nat
  = length agent_list.
Proof.
  induction agent_list as [|agent_id agent_list IH]; [reflexivity|].
  cbn [omap list_omap]. unfold failure_of at 1, success_of at 1.
  destruct (try_agent agent_id component); cbn [length]; lia.
Qed.

(** C6: when the accessor raises nothing but platform errors, every
    identifier of the list leaves exactly one entry, in [failed] or in
    [affected], and the entries keep the order of the list: an unknown
    identifier leaves [(id, WazuhResourceNotFound(1701))] in [failed]; a
    known one whose fetch raises [e] leaves [(id, e)] in [failed] and the
    loop goes on; a known one whose fetch returns leaves its payload in
    [affected]. *)
Theorem agents_partition agent_list component :
  platform_only agent_list component ->
  get_agents_component_stats_json_ payload system_agents get_stats
    agent_list component
  = Return (omap (failure component) agent_list,
            omap (success component) agent_list)
  /\ (length (omap (failure component) agent_list)
      + length (omap (success component) agent_list))%nat
     = length agent_list
  /\ forall agent_id,
       (agent_id ∉ system_agents ->
        failure component agent_id
        = Some (agent_id, WazuhResourceNotFound 1701)
        /\ success component agent_id = None)
       /\ (forall e, agent_id ∈ system_agents ->
             get_stats agent_id component = Raise e ->
             failure component agent_id = Some (agent_id, e)
             /\ success component agent_id = None)
       /\ (forall stats, agent_id ∈ system_agents ->
             get_stats agent_id component = Return stats ->
             failure component agent_id = None
             /\ success component agent_id = Some stats).
Proof.
  intros Hplat. split; [|split].
  - unfold get_agents_component_stats_json_.
    by rewrite agents_loop_partition.
  - apply partition_lengths.
  - intros agent_id.
    unfold failure_of, success_of, attempt.
    split; [|split].
    + intros Hunknown. by rewrite bool_decide_eq_true_2.
    + intros e Hknown Hraise.
      rewrite bool_decide_eq_false_2 by (intros Hn; by apply Hn).
      by rewrite Hraise.
    + intros stats Hknown Hret.
      rewrite bool_decide_eq_false_2 by (intros Hn; by apply Hn).
      by rewrite Hret.
Qed.

(** An error outside the platform's family is not caught: the first one
    leaves the function. *)
Lemma agents_unexpected_error pre agent_id post component e :
  platform_only pre component ->
  try_agent agent_id component = Raise e -> is_WazuhException e = false ->
  get_agents_component_stats_json_ payload system_agents get_stats
    (pre ++ agent_id :: post) component
  = Raise e.
Proof.
  intros Hplat Htry Hother. unfold get_agents_component_stats_json_.
  generalize (@nil (string * exn)) (@nil payload).
  induction pre as [|a pre IH]; intros failed affected.
  - cbn [app agents_loop]. by rewrite Htry, Hother.
  - assert (Htail : platform_only pre component).
    { intros b e' Hb. apply Hplat. by right. }
    cbn [app agents_loop].
    destruct (try_agent a component) as [stats|e'] eqn:Ha; [by apply IH|].
    rewrite (attempt_platform_error _ _ _ _ Hplat (list_elem_of_here _ _) Ha).
    by apply IH.
Qed.

End AgentsFacts.

(** ** The daemons' state files *)

Section DaemonsFacts.

Variable float : Type.
Variable py_float : string -> float + string.
Variable fs : string -> option string.

#[local] Abbreviation loop := (daemons_loop float py_float).
#[local] Abbreviation entry := (entry_line float py_float).
#[local] Abbreviation contributes := (line_entry float py_float).
#[local] Abbreviation broken := (broken_line float py_float).

Lemma string_app_assoc (a b c : string) : (a +:+ b) +:+ c = a +:+ (b +:+ c).
Proof.
  induction a as [|x a IH]; [reflexivity|].
  change (String x ((a +:+ b) +:+ c) = String x (a +:+ b +:+ c)).
  by rewrite IH.
Qed.

Lemma drop_last_snoc s c : drop_last (s +:+ String c "") = s.
Proof.
  induction s as [|d r IH]; [reflexivity|].
  destruct r as [|d' r']; [reflexivity|].
  change (String d (drop_last (String d' r' +:+ String c ""))
          = String d (String d' r')).
  by rewrite IH.
Qed.

Lemma strip_ends_quoted value : strip_ends (quoted value) = value.
Proof. unfold quoted, strip_ends. apply drop_last_snoc. Qed.

Lemma loop_skipped line rest items :
  skipped line = true -> loop (line :: rest) items = loop rest items.
Proof.
  unfold skipped. intros Hskip. cbn [daemons_loop].
  rewrite <- negb_orb, Hskip. reflexivity.
Qed.

Lemma loop_entry line key x rest items :
  entry line key x ->
  loop (line :: rest) items = loop rest (<[key := x]> items).
Proof.
  intros (Hkeep & body & value & more & -> & Hsplit & Hfloat).
  unfold skipped in Hkeep. cbn [daemons_loop].
  rewrite <- negb_orb, Hkeep. cbn [negb].
  unfold NL. rewrite drop_last_snoc, Hsplit.
  cbn [lookup list_lookup]. by rewrite strip_ends_quoted, Hfloat.
Qed.

Lemma loop_broken line msg rest items :
  broken line msg -> loop (line :: rest) items = inr msg.
Proof.
  intros (Hkeep & Hwhy). unfold skipped in Hkeep. cbn [daemons_loop].
  rewrite <- negb_orb, Hkeep. cbn [negb].
  destruct Hwhy as [[-> ->]|(field & -> & ->)]; reflexivity.
Qed.

Lemma loop_entries lines entries rest items :
  Forall2 contributes lines entries ->
  loop (lines ++ rest) items
  = loop rest (foldl (fun m e => <[e.1 := e.2]> m) items (omap id entries)).
Proof.
  intros Hall. revert items.
  induction Hall as [|line e lines entries Hline _ IH]; intros items;
    [reflexivity|].
  cbn [app]. destruct Hline as [[Hskip ->]|(key & x & Hentry & ->)].
  - rewrite loop_skipped by done. apply IH.
  - rewrite (loop_entry _ _ _ _ _ Hentry). apply IH.
Qed.

(** C8: a file that cannot be opened raises [WazuhError(1308)] with its
    path; a file that can be read never raises; when each of its lines is
    passed over (one character, or a ['#']) or reads [key="value"] with a
    newline after it and [value] the text of a float, the result is the
    one-element list with the mapping of the keys to these floats; when the
    parsing pass raises on a line, the result is the
    [WazuhInternalError(1104)] object with the text of the exception. *)
Theorem daemons_stats_contract filename :
  (fs filename = None ->
   get_daemons_stats_ float py_float fs filename
   = Raise (WazuhError 1308 (Some filename)))
  /\ (forall text, fs filename = Some text ->
        exists r, get_daemons_stats_ float py_float fs filename = Return r)
  /\ (forall text entries,
        fs filename = Some text ->
        Forall2 contributes (readlines text) entries ->
        get_daemons_stats_ float py_float fs filename
        = Return (Items [items_of float entries]))
  /\ (forall text pre line post entries msg,
        fs filename = Some text ->
        readlines text = pre ++ line :: post ->
        Forall2 contributes pre entries ->
        broken line msg ->
        get_daemons_stats_ float py_float fs filename
        = Return (ErrorObject (WazuhInternalError 1104 (Some msg)))).
Proof.
  unfold get_daemons_stats_. repeat split.
  - by intros ->.
  - intros text ->. destruct (loop (readlines text) ∅); eauto.
  - intros text entries -> Hlines.
    rewrite <- (app_nil_r (readlines text)), (loop_entries _ _ _ _ Hlines).
    reflexivity.
  - intros text pre line post entries msg -> -> Hpre Hbroken.
    by rewrite (loop_entries _ _ _ _ Hpre), (loop_broken _ _ _ _ Hbroken).
Qed.

(** The last character of a line is dropped whatever it is: on a last line
    that no newline ends, the closing quote goes with [line[:-1]] and the
    last character of the value with [[1:-1]]. *)
Lemma daemons_line_without_newline key value c x items :
  split "=" (key +:+ "=" +:+ String quote (value +:+ String c ""))
  = [key; String quote (value +:+ String c "")] ->
  skipped (key +:+ "=" +:+ quoted (value +:+ String c "")) = false ->
  py_float value = inl x ->
  loop [key +:+ "=" +:+ quoted (value +:+ String c "")] items
  = inl (<[key := x]> items).
Proof.
  intros Hsplit Hkeep Hfloat. unfold skipped in Hkeep. cbn [daemons_loop].
  rewrite <- negb_orb, Hkeep. cbn [negb].
  assert (Hdrop : drop_last (key +:+ "=" +:+ quoted (value +:+ String c ""))
                  = key +:+ "=" +:+ String quote (value +:+ String c "")).
  { unfold quoted.
    replace (key +:+ "=" +:+ String quote ((value +:+ String c "") +:+ String quote ""))
      with ((key +:+ "=" +:+ String quote (value +:+ String c "")) +:+ String quote "").
    - apply drop_last_snoc.
    - rewrite (string_app_assoc key), (string_app_assoc "="). reflexivity. }
  rewrite Hdrop, Hsplit. cbn [lookup list_lookup].
  unfold strip_ends. by rewrite drop_last_snoc, Hfloat.
Qed.

End DaemonsFacts.

(** ** The control socket *)

Section SocketFacts.

Variable wazuh_path : string.
Variable connect : string -> bool.
Variable send : string -> string -> option exn.
Variable receive : string -> string -> result string.
Variable json_loads : string -> option json.
Variable reformat : string -> option string.

#[local] Abbreviation from_socket :=
  (get_daemons_stats_from_socket wazuh_path connect send receive
     json_loads reformat).
#[local] Abbreviation talk :=
  (exchange connect send receive json_loads reformat).
#[local] Abbreviation answer := (format_response json_loads reformat).
#[local] Abbreviation sockets := (sockets_path wazuh_path).

(** *** The request *)

Lemma eqb_empty s : String.eqb s "" = false <-> s <> "".
Proof. apply String.eqb_neq. Qed.

Lemma request_invalid agent_id daemon :
  agent_id = "" \/ daemon = "" ->
  request wazuh_path agent_id daemon = Raise (WazuhError 1307 None).
Proof.
  unfold request. intros [->| ->]; [reflexivity|].
  by rewrite orb_true_r.
Qed.

Lemma request_manager_agent agent_id :
  agent_id <> "" -> zfill 3 agent_id = "000" ->
  request wazuh_path agent_id "agent" = Raise (WazuhError 1310 None).
Proof.
  intros Hid Hpad. unfold request.
  apply eqb_empty in Hid. rewrite Hid, Hpad. reflexivity.
Qed.

Lemma request_manager agent_id daemon :
  agent_id <> "" -> daemon <> "" -> zfill 3 agent_id = "000" ->
  daemon <> "agent" ->
  request wazuh_path agent_id daemon
  = Return (path_join sockets daemon, "getstate").
Proof.
  intros Hid Hd Hpad Hdaemon. unfold request.
  apply eqb_empty in Hid, Hd. apply String.eqb_neq in Hdaemon.
  rewrite Hid, Hd, Hpad, Hdaemon. reflexivity.
Qed.

Lemma request_agent agent_id daemon :
  agent_id <> "" -> daemon <> "" -> zfill 3 agent_id <> "000" ->
  request wazuh_path agent_id daemon
  = Return (path_join sockets "request",
            zfill 3 agent_id +:+ " " +:+ daemon +:+ " getstate").
Proof.
  intros Hid Hd Hpad. unfold request.
  apply eqb_empty in Hid, Hd. apply String.eqb_neq in Hpad.
  rewrite Hid, Hd, Hpad. reflexivity.
Qed.

(** What is done to the socket [dest_socket] with [command]: it is the only
    socket opened, and [command] is what is sent once it is open. *)
Lemma exchange_events dest_socket command :
  (forall ev, ev ∈ (talk dest_socket command).1 ->
     ev ∈ [Connect dest_socket; Send command; Receive; Close])
  /\ (connect dest_socket = true ->
      exists rest,
        (talk dest_socket command).1
        = Connect dest_socket :: Send command :: rest)
  /\ (connect dest_socket = false ->
      talk dest_socket command
      = ([Connect dest_socket], Raise (WazuhInternalError 1121 None))).
Proof.
  unfold exchange. split; [|split].
  - intros ev.
    destruct (connect dest_socket);
      [destruct (send dest_socket command);
         [|destruct (receive dest_socket command)]|];
      cbn [fst]; rewrite !elem_of_cons, !elem_of_nil; tauto.
  - intros ->.
    destruct (send dest_socket command); [by eexists|].
    destruct (receive dest_socket command); by eexists.
  - by intros ->.
Qed.

Lemma exchange_sent_to dest_socket command :
  sent_to connect dest_socket command (talk dest_socket command).
Proof.
  destruct (exchange_events dest_socket command) as (Hin & Hopen & Hclosed).
  split; [|split; [|split]]; try done.
  destruct (connect dest_socket) eqn:Hc.
  - destruct (Hopen eq_refl) as (rest & ->). by eexists.
  - rewrite (Hclosed eq_refl). by eexists.
Qed.

(** C5: the request phase.  An empty [agent_id] or [daemon] raises
    [WazuhError(1307)] and nothing is done to any socket; for the manager
    ([agent_id] pads to ["000"]) the daemon ["agent"] raises
    [WazuhError(1310)], again with no socket event; for the manager and any
    other daemon the socket opened is the daemon's own and the command sent
    on it is ["getstate"]; for any other agent the socket opened is the
    ["request"] socket and the command sent on it is
    ["<id padded to 3> <daemon> getstate"]. *)
Theorem request_phase agent_id daemon :
  (agent_id = "" \/ daemon = "" ->
   from_socket agent_id daemon = ([], Raise (WazuhError 1307 None)))
  /\ (agent_id <> "" -> zfill 3 agent_id = "000" -> daemon = "agent" ->
      from_socket agent_id daemon = ([], Raise (WazuhError 1310 None)))
  /\ (agent_id <> "" -> daemon <> "" -> zfill 3 agent_id = "000" ->
      daemon <> "agent" ->
      from_socket agent_id daemon
      = talk (path_join sockets daemon) "getstate"
      /\ sent_to connect (path_join sockets daemon) "getstate"
           (from_socket agent_id daemon))
  /\ (agent_id <> "" -> daemon <> "" -> zfill 3 agent_id <> "000" ->
      from_socket agent_id daemon
      = talk (path_join sockets "request")
          (zfill 3 agent_id +:+ " " +:+ daemon +:+ " getstate")
      /\ sent_to connect (path_join sockets "request")
           (zfill 3 agent_id +:+ " " +:+ daemon +:+ " getstate")
           (from_socket agent_id daemon)).
Proof.
  unfold get_daemons_stats_from_socket. split; [|split; [|split]].
  - intros Hempty. by rewrite request_invalid.
  - intros Hid Hpad ->. by rewrite request_manager_agent.
  - intros Hid Hd Hpad Hdaemon. rewrite request_manager by done.
    split; [reflexivity|apply exchange_sent_to].
  - intros Hid Hd Hpad. rewrite request_agent by done.
    split; [reflexivity|apply exchange_sent_to].
Qed.

(** *** The reply *)

Lemma from_socket_reply agent_id daemon rec_msg :
  replies wazuh_path connect send receive agent_id daemon rec_msg ->
  exists dest_socket command,
    from_socket agent_id daemon
    = ([Connect dest_socket; Send command; Receive; Close], answer rec_msg).
Proof.
  intros (dest & cmd & Hreq & Hopen & Hsend & Hrecv).
  exists dest, cmd. unfold get_daemons_stats_from_socket, exchange.
  by rewrite Hreq, Hopen, Hsend, Hrecv.
Qed.

Lemma no_space_no_message s :
  contains " " s = false -> after_first_space s = None.
Proof.
  induction s as [|c r IH]; [reflexivity|]. cbn [contains after_first_space].
  rewrite (Ascii.eqb_sym " " c). destruct (Ascii.eqb c " "); [discriminate|done].
Qed.

(** C9: a reply that fails the structured decoding and holds no space makes
    [rec_msg.split(" ", 1)[1]] raise [IndexError]: that exception leaves the
    function, after the socket was closed, and no [WazuhError(1117)] is
    built. *)
Theorem reply_without_space agent_id daemon rec_msg :
  replies wazuh_path connect send receive agent_id daemon rec_msg ->
  decode json_loads reformat rec_msg = None ->
  contains " " rec_msg = false ->
  (from_socket agent_id daemon).2 = Raise IndexError
  /\ forall msg,
       (from_socket agent_id daemon).2 <> Raise (WazuhError 1117 msg).
Proof.
  intros Hreply Hdecode Hspace.
  destruct (from_socket_reply _ _ _ Hreply) as (dest & cmd & ->).
  cbn [snd]. unfold format_response.
  rewrite Hdecode, (no_space_no_message _ Hspace). by split.
Qed.

(** *** The structured reply *)

Lemma update_loop_spec (items : list (string * json)) (data : gmap string json) :
  NoDup items.*1 ->
  (forall k, k ∈ items.*1 -> is_time_key k = true ->
     exists s t, data !! k = Some (JString s) /\ reformat s = Some t) ->
  exists data',
    update_loop reformat items data = Some data'
    /\ forall k,
         data' !! k
         = if bool_decide (k ∈ items.*1) && is_time_key k
           then reformat_value reformat <$> data !! k
           else data !! k.
Proof.
  revert data. induction items as [|[k v0] items IH]; intros data Hnodup Htime.
  - exists data. split; [reflexivity|]. intros k.
    by rewrite bool_decide_eq_false_2 by apply not_elem_of_nil.
  - csimpl in *. apply NoDup_cons in Hnodup as [Hfresh Hnodup].
    assert (Hmem : forall k', k' <> k ->
              bool_decide (k' ∈ k :: items.*1) = bool_decide (k' ∈ items.*1)).
    { intros k' Hne. apply bool_decide_ext. rewrite elem_of_cons. tauto. }
    destruct (is_time_key k) eqn:Hk.
    + destruct (Htime k) as (s & t & Hs & Ht); [left|done|].
      rewrite Hs, Ht. csimpl.
      destruct (IH (<[k := JString t]> data) Hnodup) as (data' & -> & Hspec).
      { intros k2 Hin Hk2. rewrite lookup_insert_ne by (intros ->; done).
        apply Htime; [by right|done]. }
      exists data'. split; [reflexivity|]. intros k'. rewrite Hspec.
      destruct (decide (k' = k)) as [->|Hne].
      * rewrite (bool_decide_eq_false_2 _ Hfresh), lookup_insert_eq.
        rewrite bool_decide_eq_true_2 by left.
        rewrite Hk, Hs. cbn. by rewrite Ht.
      * by rewrite lookup_insert_ne, Hmem by done.
    + destruct (IH data Hnodup) as (data' & -> & Hspec).
      { intros k2 Hin Hk2. apply Htime; [by right|done]. }
      exists data'. split; [reflexivity|]. intros k'. rewrite Hspec.
      destruct (decide (k' = k)) as [->|Hne].
      * by rewrite Hk, !andb_false_r.
      * by rewrite Hmem.
Qed.

(** The data mapping of a well-formed reply: the timestamp fields are
    reformatted, the other fields are as received. *)
Lemma decode_data rec_msg top data :
  json_loads rec_msg = Some (JObject top) ->
  top !! "data" = Some (JObject data) ->
  timestamps_parse reformat data ->
  exists data',
    decode json_loads reformat rec_msg = Some data'
    /\ forall k,
         data' !! k
         = if is_time_key k
           then reformat_value reformat <$> data !! k
           else data !! k.
Proof.
  intros Hjson Hdata Htime. unfold decode. rewrite Hjson, Hdata.
  destruct (update_loop_spec (map_to_list data) data) as (data' & -> & Hspec).
  - apply NoDup_fst_map_to_list.
  - intros k Hin Hk. apply list_elem_of_fmap in Hin as ([k' v] & -> & Hin).
    apply elem_of_map_to_list in Hin. cbn [fst] in *.
    destruct (Htime k' v Hk Hin) as (s & t & -> & Ht). eauto.
  - exists data'. split; [reflexivity|]. intros k. rewrite Hspec.
    destruct (is_time_key k); [|by rewrite andb_false_r].
    rewrite andb_true_r. case_bool_decide as Hin; [done|].
    destruct (data !! k) as [v|] eqn:Hv; [|done].
    destruct Hin. apply list_elem_of_fmap. exists (k, v).
    split; [done|]. by apply elem_of_map_to_list.
Qed.

Lemma is_time_key_names k :
  is_time_key k = true <-> k = "last_keepalive" \/ k = "last_ack".
Proof.
  unfold is_time_key. rewrite orb_true_iff, !String.eqb_eq. tauto.
Qed.

(** C4: the two ways of a reply.  A reply that is a JSON object with a
    [data] mapping whose fields [last_keepalive] and [last_ack], when
    present, are texts that [strptime] accepts gives that mapping, with the
    value of [last_keepalive] and the value of [last_ack] each replaced by
    its reformatted text and every other field as received; a reply that
    fails the structured decoding and holds a space raises
    [WazuhError(1117)] with what follows its first space. *)
Theorem reply_decoding agent_id daemon rec_msg :
  replies wazuh_path connect send receive agent_id daemon rec_msg ->
  (forall top data,
     json_loads rec_msg = Some (JObject top) ->
     top !! "data" = Some (JObject data) ->
     timestamp_texts reformat data ->
     exists data',
       (from_socket agent_id daemon).2 = Return data'
       /\ data' !! "last_keepalive"
          = reformat_value reformat <$> data !! "last_keepalive"
       /\ data' !! "last_ack"
          = reformat_value reformat <$> data !! "last_ack"
       /\ (forall s t, data !! "last_keepalive" = Some (JString s) ->
             reformat s = Some t ->
             data' !! "last_keepalive" = Some (JString t))
       /\ (forall s t, data !! "last_ack" = Some (JString s) ->
             reformat s = Some t ->
             data' !! "last_ack" = Some (JString t))
       /\ (forall k, k <> "last_keepalive" -> k <> "last_ack" ->
             data' !! k = data !! k))
  /\ (forall msg,
        decode json_loads reformat rec_msg = None ->
        after_first_space rec_msg = Some msg ->
        (from_socket agent_id daemon).2 = Raise (WazuhError 1117 (Some msg))).
Proof.
  intros Hreply.
  destruct (from_socket_reply _ _ _ Hreply) as (dest & cmd & ->).
  cbn [snd]. unfold format_response. split.
  - intros top data Hjson Hdata Htexts.
    assert (Htime : timestamps_parse reformat data).
    { intros k v Hk. apply Htexts. by apply is_time_key_names. }
    destruct (decode_data _ _ _ Hjson Hdata Htime) as (data' & -> & Hspec).
    exists data'. split; [reflexivity|].
    pose proof (Hspec "last_keepalive") as Hkeep.
    pose proof (Hspec "last_ack") as Hack.
    change (is_time_key "last_keepalive") with true in Hkeep.
    change (is_time_key "last_ack") with true in Hack.
    split; [exact Hkeep|]. split; [exact Hack|]. split; [|split].
    + intros s t Hs Ht. rewrite Hkeep, Hs. cbn. by rewrite Ht.
    + intros s t Hs Ht. rewrite Hack, Hs. cbn. by rewrite Ht.
    + intros k Hk1 Hk2. rewrite Hspec.
      destruct (is_time_key k) eqn:Hk; [|reflexivity].
      apply is_time_key_names in Hk as [->| ->]; congruence.
  - by intros msg -> ->.
Qed.

(** A timestamp field that [strptime] accepts is replaced by its
    reformatted text. *)
Lemma reformat_value_text s t :
  reformat s = Some t -> reformat_value reformat (JString s) = JString t.
Proof. cbn. by intros ->. Qed.

(** *** Closing the socket *)

(** Once a reply is received, the socket is closed before the reply is
    decoded: on both ways of the decoding the last event is [Close]. *)
Lemma socket_closed_after_reply agent_id daemon rec_msg :
  replies wazuh_path connect send receive agent_id daemon rec_msg ->
  last (from_socket agent_id daemon).1 = Some Close.
Proof.
  intros Hreply.
  by destruct (from_socket_reply _ _ _ Hreply) as (dest & cmd & ->).
Qed.

(** C3: the socket is not closed on every way out.  When the socket was
    opened, the command sent and [receive] raises, the function raises in
    its turn ([WazuhInternalError(1118)] for a [ValueError], the exception
    itself otherwise) after [Connect], [Send] and [Receive]: no [Close] is
    performed on the socket it opened.  (After a reply was received the
    socket is closed, on both ways of the decoding.) *)
Theorem socket_left_open_on_receive_error
    agent_id daemon dest_socket command e :
  request wazuh_path agent_id daemon = Return (dest_socket, command) ->
  connect dest_socket = true ->
  send dest_socket command = None ->
  receive dest_socket command = Raise e ->
  from_socket agent_id daemon
  = ([Connect dest_socket; Send command; Receive],
     if is_ValueError e
     then Raise (WazuhInternalError 1118 (Some "Data could not be received"))
     else Raise e)
  /\ Close ∉ (from_socket agent_id daemon).1.
Proof.
  intros Hreq Hopen Hsend Hrecv.
  unfold get_daemons_stats_from_socket, exchange.
  rewrite Hreq, Hopen, Hsend, Hrecv. split; [reflexivity|].
  cbn [fst]. rewrite !elem_of_cons, elem_of_nil.
  intros [|[|[|]]]; done.
Qed.

(** The same when [send] raises. *)
Lemma socket_open_after_send_error agent_id daemon dest_socket command e :
  request wazuh_path agent_id daemon = Return (dest_socket, command) ->
  connect dest_socket = true ->
  send dest_socket command = Some e ->
  from_socket agent_id daemon
  = ([Connect dest_socket; Send command], Raise e).
Proof.
  intros Hreq Hopen Hsend.
  unfold get_daemons_stats_from_socket, exchange.
  by rewrite Hreq, Hopen, Hsend.
Qed.

End SocketFacts.

(** * The functions at work on the sample environments *)

Section Samples.

Import Sample.

#[local] Abbreviation from_sample_socket :=
  (get_daemons_stats_from_socket "/var/ossec" open_any send_any receive_from
     loads to_utc).

Lemma hourly_buckets_parse : buckets_parse buckets (hourly_dir stats_root).
Proof. apply buckets_parseb_correct. vm_compute. reflexivity. Qed.

Lemma weekly_buckets_parse i :
  (i < 7)%nat -> buckets_parse buckets (weekly_dir stats_root i).
Proof.
  intros Hi. apply buckets_parseb_correct.
  do 7 (destruct i as [|i]; [vm_compute; reflexivity|]). lia.
Qed.

(** On the sample store [hourly_] returns 24 averages, bucket 3 holding the
    17 of its file and the others 0. *)
Lemma averages_zero_filled_sample :
  buckets_parse buckets (hourly_dir stats_root)
  /\ (forall i, (i < 7)%nat -> buckets_parse buckets (weekly_dir stats_root i))
  /\ exists h ws,
       hourly_ stats_root buckets = Return [h]
       /\ length (averages h) = 24%nat
       /\ averages h !! 5%nat = Some 0
       /\ weekly_ stats_root buckets = Return ws
       /\ length ws = 7%nat.
Proof.
  split; [exact hourly_buckets_parse|]. split; [exact weekly_buckets_parse|].
  destruct (averages_zero_filled stats_root buckets) as [Hhourly Hweekly].
  destruct (Hhourly hourly_buckets_parse) as (h & Hh & Hlen & Hzero & _).
  destruct (Hweekly weekly_buckets_parse) as (ws & Hws & Hseven & _).
  exists h, ws. repeat split; try done.
  apply Hzero; [lia|reflexivity].
Defined.

(** On the damaged store both functions raise. *)
Lemma unparsable_bucket_sample :
  hourly_ stats_root damaged_buckets = Raise ValueError
  /\ weekly_ stats_root damaged_buckets = Raise ValueError.
Proof.
  destruct (unparsable_bucket_raises stats_root damaged_buckets 7 "abc")
    as [Hhourly Hweekly]; [lia|reflexivity|].
  split; [apply Hhourly; reflexivity|apply (Hweekly 2%nat); [lia|reflexivity]].
Defined.

Lemma totals_log_lines :
  Forall (fun l => alert_line_ok l \/ closing_line_ok l) totals_log.
Proof.
  unfold totals_log.
  repeat (apply Forall_cons_2;
          [first [ left; split; [reflexivity|vm_compute; eauto]
                 | right; split; [reflexivity|vm_compute; eauto] ]|]).
  apply Forall_nil_2.
Qed.

(** The sample log gives one record, and no failure. *)
Lemma totals_well_formed_log_sample :
  Forall (fun l => alert_line_ok l \/ closing_line_ok l) totals_log
  /\ exists recs,
       totals_loop totals_log [] [] = Return (false, recs)
       /\ length recs = 1%nat.
Proof.
  split; [exact totals_log_lines|].
  destruct (totals_well_formed_log totals_log totals_log_lines)
    as (groups & trailing & recs & _ & _ & _ & _ & Hloop).
  exists recs. split; [exact Hloop|].
  assert (Hrun : totals_loop totals_log [] []
                 = Return (false, [mkTotals 10 [mkAlert 2 3 4; mkAlert 6 7 8]
                                     1 2 3 4])) by reflexivity.
  rewrite Hloop in Hrun. by injection Hrun as ->.
Defined.

(** A 3-field line after the sample log: the one record of the log is
    returned with the failure flag, the lines that follow are not read. *)
Lemma totals_malformed_line_sample :
  totals_loop (totals_log ++ short_line :: later_lines) [] []
  = Return (true, [mkTotals 10 [mkAlert 2 3 4; mkAlert 6 7 8] 1 2 3 4]).
Proof.
  apply (totals_malformed_line totals_log short_line later_lines
           [mkAlert 9 9 9]).
  - reflexivity.
  - repeat split; vm_compute; discriminate.
Defined.

(** The sample state file, a broken one and a missing one. *)
Lemma daemons_stats_contract_sample :
  get_daemons_stats_ _ decimal state_files "/var/ossec/var/run/missing.state"
  = Raise (WazuhError 1308 (Some "/var/ossec/var/run/missing.state"))
  /\ get_daemons_stats_ _ decimal state_files
       "/var/ossec/var/run/wazuh-remoted.state"
     = Return (Items [<["tcp_sessions" := (12, 0%nat)]>
                        (<["queue_size" := (15, 1%nat)]> ∅)])
  /\ get_daemons_stats_ _ decimal state_files "/var/ossec/var/run/broken.state"
     = Return (ErrorObject
                 (WazuhInternalError 1104 (Some "list index out of range"))).
Proof.
  split; [|split].
  - apply (daemons_stats_contract _ decimal state_files). reflexivity.
  - apply (proj1 (proj2 (proj2 (daemons_stats_contract _ decimal state_files
                                  "/var/ossec/var/run/wazuh-remoted.state")))
             state_file
             [None; Some ("queue_size", (15, 1%nat)); None;
              Some ("tcp_sessions", (12, 0%nat))]); [reflexivity|].
    change (readlines state_file)
      with ["# State file for wazuh-remoted" +:+ NL;
            "queue_size=" +:+ quoted "1.5" +:+ NL;
            NL;
            "tcp_sessions=" +:+ quoted "12" +:+ NL].
    constructor; [by left|]. constructor; [|constructor; [by left|]].
    + right. exists "queue_size", (15, 1%nat). split; [|done].
      split; [reflexivity|]. by exists ("queue_size=" +:+ quoted "1.5"), "1.5", [].
    + constructor; [|constructor].
      right. exists "tcp_sessions", (12, 0%nat). split; [|done].
      split; [reflexivity|].
      by exists ("tcp_sessions=" +:+ quoted "12"), "12", [].
  - apply (proj2 (proj2 (proj2 (daemons_stats_contract _ decimal state_files
                                  "/var/ossec/var/run/broken.state")))
             broken_state_file
             ["queue_size=" +:+ quoted "1.5" +:+ NL]
             ("tcp_sessions" +:+ NL) []
             [Some ("queue_size", (15, 1%nat))]); [reflexivity|reflexivity| |].
    + constructor; [|constructor].
      right. exists "queue_size", (15, 1%nat). split; [|done].
      split; [reflexivity|]. by exists ("queue_size=" +:+ quoted "1.5"), "1.5", [].
    + split; [reflexivity|]. by left.
Defined.

Lemma sample_platform_errors agent_list component :
  platform_errors_only string known_agents fetch_stats agent_list component.
Proof.
  intros agent_id e _ _. unfold fetch_stats.
  destruct (String.eqb agent_id "001"); [discriminate|by intros [= <-]].
Qed.

(** An unknown agent, a known one, one whose fetch fails, the known one
    again: two failures and two payloads, in the order of the list. *)
Lemma agents_partition_sample :
  get_agents_component_stats_json_ string known_agents fetch_stats
    ["003"; "001"; "002"; "001"] "logcollector"
  = Return ([("003", WazuhResourceNotFound 1701);
             ("002", WazuhError 1735 None)],
            ["stats of 001: logcollector"; "stats of 001: logcollector"]).
Proof.
  apply (agents_partition string known_agents fetch_stats
           ["003"; "001"; "002"; "001"] "logcollector").
  apply sample_platform_errors.
Defined.

Lemma sample_replies agent_id reply :
  receive_from "/var/ossec/queue/sockets/request"
    (zfill 3 agent_id +:+ " wazuh-analysisd getstate") = Return reply ->
  request "/var/ossec" agent_id "wazuh-analysisd"
  = Return ("/var/ossec/queue/sockets/request",
            zfill 3 agent_id +:+ " wazuh-analysisd getstate") ->
  replies "/var/ossec" open_any send_any receive_from
    agent_id "wazuh-analysisd" reply.
Proof.
  intros Hrecv Hreq. eexists _, _. split; [exact Hreq|].
  split; [reflexivity|]. split; [reflexivity|exact Hrecv].
Qed.

Lemma is_time_key_inv k :
  is_time_key k = true -> k = "last_keepalive" \/ k = "last_ack".
Proof.
  unfold is_time_key. intros Hk. apply orb_true_iff in Hk as [Hk|Hk];
    apply String.eqb_eq in Hk; auto.
Qed.

Lemma state_data_timestamps : timestamps_parse to_utc state_data.
Proof.
  intros k v Hk Hv. apply is_time_key_inv in Hk as [->| ->].
  - vm_compute in Hv. injection Hv as <-.
    by exists "2021-01-01 00:00:00", "2021-01-01T00:00:00Z".
  - vm_compute in Hv. discriminate.
Qed.

(** The four cases of the request phase, one sample call each: no event
    in the two cases of refusal, the daemon's socket and ["getstate"] for
    the manager, the ["request"] socket and the padded command for agent
    1. *)
Lemma request_phase_sample :
  from_sample_socket "001" "" = ([], Raise (WazuhError 1307 None))
  /\ from_sample_socket "0" "agent" = ([], Raise (WazuhError 1310 None))
  /\ (exists rest,
        (from_sample_socket "0" "wazuh-analysisd").1
        = Connect "/var/ossec/queue/sockets/wazuh-analysisd"
            :: Send "getstate" :: rest)
  /\ (exists rest,
        (from_sample_socket "1" "wazuh-analysisd").1
        = Connect "/var/ossec/queue/sockets/request"
            :: Send "001 wazuh-analysisd getstate" :: rest).
Proof.
  split; [|split; [|split]].
  - apply (request_phase "/var/ossec" open_any send_any receive_from
             loads to_utc "001" ""). by right.
  - apply (request_phase "/var/ossec" open_any send_any receive_from
             loads to_utc "0" "agent"); [discriminate|reflexivity|reflexivity].
  - destruct (request_phase "/var/ossec" open_any send_any receive_from
                loads to_utc "0" "wazuh-analysisd") as (_ & _ & Hmanager & _).
    destruct Hmanager as (_ & _ & Hsent & _);
      [discriminate|discriminate|reflexivity|discriminate|].
    apply Hsent. reflexivity.
  - destruct (request_phase "/var/ossec" open_any send_any receive_from
                loads to_utc "1" "wazuh-analysisd") as (_ & _ & _ & Hagent).
    destruct Hagent as (_ & _ & Hsent & _);
      [discriminate|discriminate|vm_compute; discriminate|].
    apply Hsent. reflexivity.
Defined.

Lemma acked_replies :
  replies "/var/ossec" open_any send_any ReplySamples.receive_acked
    "9" "wazuh-remoted" ReplySamples.acked_reply.
Proof.
  eexists _, _. split; [reflexivity|]. split; [reflexivity|].
  split; reflexivity.
Qed.

Lemma denied_by_remoted :
  replies "/var/ossec" open_any send_any ReplySamples.receive_acked
    "8" "wazuh-remoted" "err Agent is not connected".
Proof.
  eexists _, _. split; [reflexivity|]. split; [reflexivity|].
  split; reflexivity.
Qed.

Lemma acked_data_timestamps :
  timestamp_texts ReplySamples.to_utc_seconds ReplySamples.acked_data.
Proof.
  intros k v [->| ->] Hv; vm_compute in Hv; injection Hv as <-.
  - by exists "2021-01-01 00:00:00", "2021-01-01T00:00:00Z".
  - by exists "2021-01-01 00:00:05", "2021-01-01T00:00:05Z".
Qed.

(** A structured reply that holds both timestamps and two other fields, and
    an error envelope: both timestamps come back reformatted, the other
    fields as they were. *)
Lemma reply_decoding_sample :
  (exists data',
     (get_daemons_stats_from_socket "/var/ossec" open_any send_any
        ReplySamples.receive_acked ReplySamples.loads_acked
        ReplySamples.to_utc_seconds "9" "wazuh-remoted").2
     = Return data'
     /\ data' !! "last_keepalive" = Some (JString "2021-01-01T00:00:00Z")
     /\ data' !! "last_ack" = Some (JString "2021-01-01T00:00:05Z")
     /\ data' !! "status" = Some (JString "connected")
     /\ data' !! "msg_count" = Some (JNumber "12"))
  /\ (get_daemons_stats_from_socket "/var/ossec" open_any send_any
        ReplySamples.receive_acked ReplySamples.loads_acked
        ReplySamples.to_utc_seconds "8" "wazuh-remoted").2
     = Raise (WazuhError 1117 (Some "Agent is not connected")).
Proof.
  split.
  - destruct (reply_decoding "/var/ossec" open_any send_any
                ReplySamples.receive_acked ReplySamples.loads_acked
                ReplySamples.to_utc_seconds "9" "wazuh-remoted"
                ReplySamples.acked_reply acked_replies) as [Hdata _].
    destruct (Hdata {[ "error" := JNumber "0";
                       "data" := JObject ReplySamples.acked_data ]}
                ReplySamples.acked_data)
      as (data' & Hret & _ & _ & Hkeep & Hack & Hother);
      [reflexivity|reflexivity|exact acked_data_timestamps|].
    exists data'. split; [exact Hret|]. split; [|split; [|split]].
    + apply (Hkeep "2021-01-01 00:00:00"); reflexivity.
    + apply (Hack "2021-01-01 00:00:05"); reflexivity.
    + by rewrite (Hother "status").
    + by rewrite (Hother "msg_count").
  - apply (reply_decoding "/var/ossec" open_any send_any
             ReplySamples.receive_acked ReplySamples.loads_acked
             ReplySamples.to_utc_seconds "8" "wazuh-remoted"
             "err Agent is not connected" denied_by_remoted);
      reflexivity.
Defined.

(** An envelope without a space. *)
Lemma reply_without_space_sample :
  (from_sample_socket "3" "wazuh-analysisd").2 = Raise IndexError.
Proof.
  apply (reply_without_space "/var/ossec" open_any send_any receive_from
           loads to_utc "3" "wazuh-analysisd" bare_reply);
    [by apply sample_replies|reflexivity|reflexivity].
Defined.

(** On the sample transport the reply to agent 004 cannot be received:
    the socket is left open; for agents 001 and 002 it is closed. *)
Lemma socket_left_open_sample :
  get_daemons_stats_from_socket "/var/ossec" open_any send_any receive_from
    loads to_utc "4" "wazuh-analysisd"
  = ([Connect "/var/ossec/queue/sockets/request";
      Send "004 wazuh-analysisd getstate"; Receive],
     Raise (WazuhInternalError 1118 (Some "Data could not be received")))
  /\ (Close ∉ (from_sample_socket "4" "wazuh-analysisd").1)
  /\ last (from_sample_socket "1" "wazuh-analysisd").1 = Some Close
  /\ last (from_sample_socket "2" "wazuh-analysisd").1 = Some Close.
Proof.
  destruct (socket_left_open_on_receive_error "/var/ossec" open_any send_any
              receive_from loads to_utc "4" "wazuh-analysisd"
              "/var/ossec/queue/sockets/request"
              "004 wazuh-analysisd getstate" ValueError)
    as [Hrun Hopen]; try reflexivity.
  split; [exact Hrun|]. split; [exact Hopen|]. split; reflexivity.
Defined.

End Samples.


(** * Further properties of the functions *)

(** ** The averages *)

Section AveragesValues.

Variable stats_path : string.
Variable fs : string -> option string.

Lemma forallb_false_witness {A} (f : A -> bool) (l : list A) :
  forallb f l = false -> exists x, In x l /\ f x = false.
Proof.
  induction l as [|x l IH]; [discriminate|]. cbn [forallb].
  destruct (f x) eqn:Hx.
  - intros Hl. destruct (IH Hl) as (y & Hy & Hfy). exists y. split; [by right|done].
  - intros _. exists x. split; [by left|done].
Qed.

(** Either every readable bucket of [dir] holds an integer, or one of them
    does not. *)
Lemma buckets_parse_or_not dir :
  buckets_parse fs dir
  \/ exists i data, (i < 25)%nat /\ fs (bucket_file dir i) = Some data
                    /\ parse_int data = None.
Proof.
  destruct (buckets_parseb fs dir) eqn:Hall.
  - left. by apply buckets_parseb_correct.
  - right. apply forallb_false_witness in Hall as (i & Hi & Hbad).
    apply in_seq in Hi. destruct (fs (bucket_file dir i)) as [data|] eqn:Hfile;
      [|discriminate].
    exists i, data. split; [lia|]. split; [done|].
    apply bool_decide_eq_false_1 in Hbad.
    destruct (parse_int data); [|done]. destruct Hbad. eauto.
Qed.

Lemma weekly_parse_or_not (range : list nat) :
  (forall i, i ∈ range -> buckets_parse fs (weekly_dir stats_path i))
  \/ exists d j data,
       d ∈ range /\ (j < 25)%nat
       /\ fs (bucket_file (weekly_dir stats_path d) j) = Some data
       /\ parse_int data = None.
Proof.
  induction range as [|d range IH].
  - left. intros i Hi. by apply elem_of_nil in Hi.
  - destruct (buckets_parse_or_not (weekly_dir stats_path d))
      as [Hd|(j & data & Hj & Hfile & Hbad)].
    + destruct IH as [Hall|(d' & j & data & Hd' & Hrest)].
      * left. intros i Hi. apply elem_of_cons in Hi as [->|Hi]; auto.
      * right. exists d', j, data. split; [by right|done].
    + right. exists d, j, data. split; [by left|done].
Qed.

Lemma bucket_values_read dir i data v :
  (i < 24)%nat -> fs (bucket_file dir i) = Some data -> parse_int data = Some v ->
  (bucket_value fs dir <$> seq 0 24) !! i = Some v.
Proof.
  intros Hi Hfile Hv. rewrite list_lookup_fmap, lookup_seq_lt by done. cbn.
  unfold bucket_value. by rewrite Hfile, Hv.
Qed.

(** X1: when the bucket files that [hourly_] reads hold integers, the
    integer of bucket file [i] is entry [i] of the averages and the integer
    of file 24 is the interactions count; when those that [weekly_] reads
    hold integers, the same holds of the hours and interactions of each
    day, and the seven records are those of Sun, Mon, Tue, Wed, Thu, Fri
    and Sat, in this order. *)
Theorem averages_read_buckets :
  (buckets_parse fs (hourly_dir stats_path) ->
   exists h,
     hourly_ stats_path fs = Return [h]
     /\ (forall i data v, (i < 24)%nat ->
           fs (bucket_file (hourly_dir stats_path) i) = Some data ->
           parse_int data = Some v -> averages h !! i = Some v)
     /\ (forall data v,
           fs (bucket_file (hourly_dir stats_path) 24) = Some data ->
           parse_int data = Some v -> interactions h = v))
  /\ ((forall i, (i < 7)%nat -> buckets_parse fs (weekly_dir stats_path i)) ->
      exists ws,
        weekly_ stats_path fs = Return ws
        /\ day <$> ws = ["Sun"; "Mon"; "Tue"; "Wed"; "Thu"; "Fri"; "Sat"]
        /\ forall d w, ws !! d = Some w ->
             (forall j data v, (j < 24)%nat ->
                fs (bucket_file (weekly_dir stats_path d) j) = Some data ->
                parse_int data = Some v -> hours w !! j = Some v)
             /\ (forall data v,
                   fs (bucket_file (weekly_dir stats_path d) 24) = Some data ->
                   parse_int data = Some v -> week_interactions w = v)).
Proof.
  split.
  - intros Hhourly. eexists. unfold hourly_. rewrite bucket_dir_ok by done.
    res_simpl.
    split; [reflexivity|]. cbn [averages interactions fst snd]. split.
    + intros i data v. apply bucket_values_read.
    + intros data v. apply bucket_value_read.
  - intros Hweekly. eexists. unfold weekly_.
    rewrite weekly_loop_ok;
      [|apply Forall_forall; intros i Hi; apply list_elem_of_In, in_seq in Hi; lia
       |intros i Hi; apply Hweekly; apply list_elem_of_In, in_seq in Hi; lia].
    split; [reflexivity|]. rewrite app_nil_l. split; [reflexivity|].
    intros d w Hw. apply list_lookup_fmap_Some in Hw as (d' & -> & Hd').
    apply lookup_seq in Hd' as [-> _]. cbn [weekly_entry hours week_interactions].
    split.
    + intros j data v. apply bucket_values_read.
    + intros data v. apply bucket_value_read.
Qed.

(** X2: on a store each file of which either cannot be read ([IOError]) or
    is read as a text, [hourly_] (resp. [weekly_]) raises the [ValueError]
    of the conversion exactly when one of the bucket files it reads holds no
    integer, and returns exactly when there is none. *)
Theorem averages_raise_iff :
  (hourly_ stats_path fs = Raise ValueError
   <-> exists i data, (i < 25)%nat
         /\ fs (bucket_file (hourly_dir stats_path) i) = Some data
         /\ parse_int data = None)
  /\ ((exists h, hourly_ stats_path fs = Return [h])
      <-> buckets_parse fs (hourly_dir stats_path))
  /\ (weekly_ stats_path fs = Raise ValueError
      <-> exists d j data, (d < 7)%nat /\ (j < 25)%nat
            /\ fs (bucket_file (weekly_dir stats_path d) j) = Some data
            /\ parse_int data = None)
  /\ ((exists ws, weekly_ stats_path fs = Return ws)
      <-> forall d, (d < 7)%nat -> buckets_parse fs (weekly_dir stats_path d)).
Proof.
  assert (Hseq7 : forall i, i ∈ seq 0 7 <-> (i < 7)%nat).
  { intros i. rewrite list_elem_of_In, in_seq. lia. }
  assert (Hseq25 : forall i, (i < 25)%nat -> i ∈ seq 0 25).
  { intros i Hi. apply list_elem_of_In, in_seq. lia. }
  assert (Hbad_hourly :
    (exists i data, (i < 25)%nat
       /\ fs (bucket_file (hourly_dir stats_path) i) = Some data
       /\ parse_int data = None) ->
    hourly_ stats_path fs = Raise ValueError).
  { intros (i & data & Hi & Hfile & Hbad). unfold hourly_.
    by rewrite (bucket_loop_bad _ _ _ _ i data) by auto. }
  assert (Hbad_weekly :
    (exists d j data, (d < 7)%nat /\ (j < 25)%nat
       /\ fs (bucket_file (weekly_dir stats_path d) j) = Some data
       /\ parse_int data = None) ->
    weekly_ stats_path fs = Raise ValueError).
  { intros (d & j & data & Hd & Hj & Hfile & Hbad). unfold weekly_.
    apply (weekly_loop_bad _ _ _ _ d j data); try done.
    - apply Forall_forall. intros i. apply Hseq7.
    - by apply Hseq7. }
  assert (Hok_hourly :
    buckets_parse fs (hourly_dir stats_path) ->
    exists h, hourly_ stats_path fs = Return [h]).
  { intros Hok. unfold hourly_. rewrite bucket_dir_ok by done. by eexists. }
  assert (Hok_weekly :
    (forall d, (d < 7)%nat -> buckets_parse fs (weekly_dir stats_path d)) ->
    exists ws, weekly_ stats_path fs = Return ws).
  { intros Hok. unfold weekly_. rewrite weekly_loop_ok; [by eexists| |].
    - apply Forall_forall. intros i. apply Hseq7.
    - intros i Hi. by apply Hok, Hseq7. }
  split; [|split; [|split]].
  - split; [|exact Hbad_hourly]. intros Hraise.
    destruct (buckets_parse_or_not (hourly_dir stats_path)) as [Hok|Hbad];
      [|done].
    destruct (Hok_hourly Hok) as (h & Hh). congruence.
  - split; [|exact Hok_hourly]. intros (h & Hh).
    destruct (buckets_parse_or_not (hourly_dir stats_path)) as [Hok|Hbad];
      [done|].
    rewrite (Hbad_hourly Hbad) in Hh. discriminate.
  - split; [|exact Hbad_weekly]. intros Hraise.
    destruct (weekly_parse_or_not (seq 0 7))
      as [Hok|(d & j & data & Hd & Hrest)].
    + destruct Hok_weekly as (ws & Hws); [|congruence].
      intros d Hd. by apply Hok, Hseq7.
    + exists d, j, data. split; [by apply Hseq7|done].
  - split; [|exact Hok_weekly]. intros (ws & Hws).
    destruct (weekly_parse_or_not (seq 0 7))
      as [Hok|(d & j & data & Hd & Hrest)].
    + intros d Hd. by apply Hok, Hseq7.
    + rewrite Hbad_weekly in Hws; [discriminate|].
      exists d, j, data. split; [by apply Hseq7|done].
Qed.

End AveragesValues.

(** ** The totals log *)

Section TotalsLines.

Lemma split_go_nonempty sep s skip cur :
  (1 <= length (split_go sep s skip cur))%nat.
Proof.
  revert skip cur. induction s as [|c r IH]; intros skip cur; [cbn; lia|].
  cbn [split_go]. destruct skip as [|k]; [|apply IH].
  destruct (String.prefix sep (String c r)); [cbn [length]; lia|apply IH].
Qed.

Lemma dashless_fields line :
  has_dash line = false ->
  length (split "-" line) = 1%nat /\ length (split "--" line) = 1%nat.
Proof.
  unfold has_dash, split. intros Hnone.
  apply negb_false_iff, Nat.eqb_eq in Hnone.
  pose proof (split_dashes_length (String.length line) line "" (Nat.le_refl _)).
  pose proof (split_go_nonempty "--" line 0 "").
  rewrite split_dash_length. lia.
Qed.

Lemma totals_line_closing_bad line alerts affected :
  is_closing_line line -> closing_of alerts line = None ->
  totals_line line alerts affected = Raise ValueError.
Proof.
  intros Hclosing. pose proof (closing_line_not_alert _ Hclosing) as Hna.
  revert Hclosing. unfold is_closing_line, closing_of, totals_line.
  apply Nat.eqb_neq in Hna. unfold is_alert_line in Hna. rewrite Hna.
  destruct (split "--" line) as [|f0 [|f1 [|f2 [|f3 [|f4 [|? ?]]]]]];
    try discriminate.
  intros _. cbn [length Nat.eqb negb index lookup list_lookup]. res_simpl.
  unfold int.
  destruct (parse_int f0); [|done].
  destruct (parse_int f1); [|done].
  destruct (parse_int f2); [|done].
  destruct (parse_int f3); [|done].
  destruct (parse_int f4); [|done]. discriminate.
Qed.

Lemma totals_line_kind line :
  is_alert_line line \/ is_closing_line line
  \/ is_skipped_line line \/ is_malformed_line line.
Proof.
  pose proof (split_go_nonempty "--" line 0 "") as Hne.
  unfold is_alert_line, is_closing_line, is_skipped_line, is_malformed_line,
    split in *.
  lia.
Qed.

(** X3: every line of a totals log is of exactly one of four kinds: an
    alert line, a closing line, a line passed over or a malformed line.  In
    particular a line with five ["--"] fields is never read as an alert (it
    holds at least eight dashes), and no line has zero fields: the
    zero-field case of the test is never taken. *)
Theorem totals_line_kinds line :
  (is_alert_line line \/ is_closing_line line
   \/ is_skipped_line line \/ is_malformed_line line)
  /\ ~ (is_alert_line line /\ is_closing_line line)
  /\ ~ (is_alert_line line /\ is_skipped_line line)
  /\ ~ (is_alert_line line /\ is_malformed_line line)
  /\ ~ (is_closing_line line /\ is_skipped_line line)
  /\ ~ (is_closing_line line /\ is_malformed_line line)
  /\ ~ (is_skipped_line line /\ is_malformed_line line)
  /\ length (split "--" line) <> 0%nat.
Proof.
  pose proof (split_go_nonempty "--" line 0 "") as Hne.
  pose proof (closing_line_not_alert line) as Hexcl.
  unfold is_alert_line, is_closing_line, is_skipped_line, is_malformed_line,
    split in *.
  repeat split; try tauto; lia.
Qed.

(** What one line can do to the loop. *)
Lemma totals_line_cases line pending affected :
  (exists a, alert_of line = Some a
     /\ totals_line line pending affected
        = Return (Next (pending ++ [a]) affected))
  \/ (exists r, closing_of pending line = Some r
        /\ totals_line line pending affected
           = Return (Next [] (affected ++ [r])))
  \/ (is_skipped_line line
      /\ totals_line line pending affected = Return (Next pending affected))
  \/ (is_malformed_line line
      /\ totals_line line pending affected = Return (Done true affected))
  \/ totals_line line pending affected = Raise ValueError.
Proof.
  destruct (totals_line_kind line) as [Halert|[Hclosing|[Hskip|Hbad]]].
  - destruct (alert_of line) as [a|] eqn:Ha.
    + left. exists a. split; [done|]. by apply totals_line_alert.
    + do 4 right. by apply totals_line_alert_bad.
  - destruct (closing_of pending line) as [r|] eqn:Hr.
    + right; left. exists r. split; [done|]. by apply totals_line_closing.
    + do 4 right. by apply totals_line_closing_bad.
  - do 2 right; left. split; [done|]. destruct Hskip. by apply totals_line_skip.
  - do 3 right; left. split; [done|]. by apply totals_line_malformed.
Qed.

(** X4: lines that hold no ['-'] (blank lines, titles) do not count: taking
    them out of the log changes nothing to what the parser returns or
    raises. *)
Theorem totals_ignores_dashless_lines stats pending affected :
  totals_loop (List.filter has_dash stats) pending affected
  = totals_loop stats pending affected.
Proof.
  revert pending affected.
  induction stats as [|line stats IH]; intros pending affected; [reflexivity|].
  cbn [List.filter]. destruct (has_dash line) eqn:Hdash.
  - cbn [totals_loop].
    destruct (totals_line line pending affected) as [[p a|b a]|e]; res_simpl;
      [apply IH|reflexivity|reflexivity].
  - destruct (dashless_fields _ Hdash) as [Hone Htwo].
    cbn [totals_loop]. rewrite totals_line_skip by (rewrite ?Hone; done).
    res_simpl. apply IH.
Qed.

Lemma totals_loop_grows stats pending affected failed recs :
  totals_loop stats pending affected = Return (failed, recs) ->
  affected `prefix_of` recs.
Proof.
  revert pending affected.
  induction stats as [|line stats IH]; intros pending affected.
  - cbn. by intros [= _ <-].
  - cbn [totals_loop].
    destruct (totals_line_cases line pending affected)
      as [(a & _ & ->)|[(r & _ & ->)|[(_ & ->)|[(_ & ->)| ->]]]]; res_simpl.
    + apply IH.
    + intros Hrest. apply IH in Hrest.
      etrans; [|exact Hrest]. by apply prefix_app_r.
    + apply IH.
    + by intros [= _ <-].
    + discriminate.
Qed.

(** X5: the records are only ever added at the end: the records the loop
    holds after a part of the log are the first records of whatever the
    function returns for the whole log, with or without the failure flag. *)
Theorem totals_records_extend pre rest pending affected failed recs :
  totals_scan pre [] [] = Return (Next pending affected) ->
  totals_loop (pre ++ rest) [] [] = Return (failed, recs) ->
  affected `prefix_of` recs.
Proof.
  intros Hpre. rewrite totals_loop_scan, Hpre. res_simpl.
  apply totals_loop_grows.
Qed.

Lemma totals_loop_raises stats pending affected e :
  totals_loop stats pending affected = Raise e -> e = ValueError.
Proof.
  revert pending affected.
  induction stats as [|line stats IH]; intros pending affected; [discriminate|].
  cbn [totals_loop].
  destruct (totals_line_cases line pending affected)
    as [(a & _ & ->)|[(r & _ & ->)|[(_ & ->)|[(_ & ->)| ->]]]]; res_simpl;
    try apply IH; [discriminate|by intros [= <-]].
Qed.

Lemma totals_line_raise_inv line pending affected e :
  totals_line line pending affected = Raise e ->
  e = ValueError
  /\ ((is_alert_line line /\ alert_of line = None)
      \/ (is_closing_line line /\ closing_of pending line = None)).
Proof.
  destruct (totals_line_kind line) as [Halert|[Hclosing|[Hskip|Hbad]]].
  - destruct (alert_of line) as [a|] eqn:Ha.
    + by rewrite (totals_line_alert _ _ _ _ Ha).
    + rewrite totals_line_alert_bad by done. intros [= <-]. auto.
  - destruct (closing_of pending line) as [r|] eqn:Hr.
    + by rewrite (totals_line_closing _ _ _ _ Hr).
    + rewrite totals_line_closing_bad by done. intros [= <-]. auto.
  - destruct Hskip. by rewrite totals_line_skip.
  - by rewrite totals_line_malformed.
Qed.

Lemma totals_loop_raise_inv stats pending0 affected0 e :
  totals_loop stats pending0 affected0 = Raise e ->
  e = ValueError
  /\ exists pre line post pending affected,
       stats = pre ++ line :: post
       /\ totals_scan pre pending0 affected0 = Return (Next pending affected)
       /\ ((is_alert_line line /\ alert_of line = None)
           \/ (is_closing_line line /\ closing_of pending line = None)).
Proof.
  revert pending0 affected0.
  induction stats as [|line stats IH]; intros pending0 affected0; [discriminate|].
  cbn [totals_loop].
  destruct (totals_line line pending0 affected0) as [[p a|b a]|e'] eqn:Hline;
    res_simpl.
  - intros Hrest. destruct (IH _ _ Hrest)
      as (-> & pre & bad & post & p' & a' & -> & Hscan & Hwhy).
    split; [reflexivity|].
    exists (line :: pre), bad, post, p', a'. split; [reflexivity|].
    split; [|exact Hwhy]. cbn [totals_scan]. by rewrite Hline.
  - discriminate.
  - intros [= <-]. destruct (totals_line_raise_inv _ _ _ _ Hline) as (-> & Hwhy).
    split; [reflexivity|]. by exists [], line, stats, pending0, affected0.
Qed.

(** X6: the loop over the lines of the log raises nothing but the
    [ValueError] of a conversion, and does so on the first line it reaches
    that has four ['-'] fields or five ["--"] fields with a counter that is
    no integer; indexing the fields never fails. *)
Theorem totals_loop_raises_at stats e :
  totals_loop stats [] [] = Raise e ->
  e = ValueError
  /\ exists pre line post pending affected,
       stats = pre ++ line :: post
       /\ totals_scan pre [] [] = Return (Next pending affected)
       /\ ((is_alert_line line /\ alert_of line = None)
           \/ (is_closing_line line /\ closing_of pending line = None)).
Proof. apply totals_loop_raise_inv. Qed.

End TotalsLines.

(** ** Texts, lines and fields *)

Section TextFacts.

Lemma app_cons c (a b : string) : String c a +:+ b = String c (a +:+ b).
Proof. reflexivity. Qed.

Lemma app_empty_r (a : string) : a +:+ "" = a.
Proof. induction a as [|c a IH]; [reflexivity|]. by rewrite app_cons, IH. Qed.

Lemma app_length (a b : string) :
  String.length (a +:+ b) = (String.length a + String.length b)%nat.
Proof.
  induction a as [|c a IH]; [reflexivity|]. rewrite app_cons. cbn. by rewrite IH.
Qed.

Lemma rev_onto_onto (a b s : string) :
  rev_string_onto a (rev_string_onto b s) = rev_string_onto (s +:+ a) b.
Proof.
  revert a b. induction s as [|c s IH]; intros a b; [reflexivity|].
  cbn [rev_string_onto]. by rewrite IH, app_cons.
Qed.

Lemma rev_onto_app (acc t : string) :
  rev_string_onto acc t = rev_string_onto "" t +:+ acc.
Proof.
  revert acc. induction t as [|x t IH]; intros acc; [reflexivity|].
  cbn [rev_string_onto]. rewrite (IH (String x acc)), (IH (String x "")).
  by rewrite string_app_assoc.
Qed.

Lemma rev_onto_length (acc t : string) :
  String.length (rev_string_onto acc t)
  = (String.length t + String.length acc)%nat.
Proof.
  revert acc. induction t as [|x t IH]; intros acc; [reflexivity|].
  cbn [rev_string_onto]. rewrite IH. cbn. lia.
Qed.

(** What the accumulator of a scan stands for once reversed. *)
Lemma rev_string_onto_spec (cur s : string) :
  rev_string (rev_string_onto cur s) = rev_string cur +:+ s.
Proof.
  unfold rev_string. rewrite rev_onto_onto, app_empty_r. apply rev_onto_app.
Qed.

Lemma contains_app c (a b : string) :
  contains c (a +:+ b) = contains c a || contains c b.
Proof.
  induction a as [|d a IH]; [reflexivity|]. rewrite app_cons. cbn [contains].
  destruct (Ascii.eqb c d); [reflexivity|apply IH].
Qed.

Lemma prefix_char c d r :
  String.prefix (String c "") (String d r) = Ascii.eqb c d.
Proof.
  rewrite prefix_cons, prefix_empty. destruct (ascii_dec c d) as [->|Hne].
  - by rewrite Ascii.eqb_refl.
  - symmetry. by apply Ascii.eqb_neq.
Qed.

Lemma split_char_none c s cur :
  contains c s = false ->
  split_go (String c "") s 0 cur = [rev_string cur +:+ s].
Proof.
  revert cur. induction s as [|d s IH]; intros cur; cbn [contains split_go].
  - by rewrite app_empty_r.
  - rewrite prefix_char. destruct (Ascii.eqb c d); [discriminate|].
    intros Hs. rewrite (IH _ Hs).
    change (String d cur) with (rev_string_onto cur (String d "")).
    rewrite rev_string_onto_spec, string_app_assoc. reflexivity.
Qed.

Lemma split_char_cons c a b cur :
  contains c a = false ->
  split_go (String c "") (a +:+ String c b) 0 cur
  = (rev_string cur +:+ a) :: split_go (String c "") b 0 "".
Proof.
  revert cur. induction a as [|d a IH]; intros cur; cbn [contains].
  - intros _. change ("" +:+ String c b) with (String c b). cbn [split_go].
    rewrite prefix_char, Ascii.eqb_refl, app_empty_r. reflexivity.
  - rewrite app_cons. cbn [split_go]. rewrite prefix_char.
    destruct (Ascii.eqb c d); [discriminate|].
    intros Ha. rewrite (IH _ Ha).
    change (String d cur) with (rev_string_onto cur (String d "")).
    rewrite rev_string_onto_spec, string_app_assoc. reflexivity.
Qed.

(** Cutting [key=field] at its first ['=']. *)
Lemma split_key_field key field :
  contains "=" key = false -> contains "=" field = false ->
  split "=" (key +:+ "=" +:+ field) = [key; field].
Proof.
  intros Hkey Hfield. unfold split.
  change (key +:+ "=" +:+ field) with (key +:+ String "=" field).
  rewrite split_char_cons, split_char_none by done. reflexivity.
Qed.

Lemma readlines_go_plain s cur :
  contains newline s = false ->
  readlines_go s cur
  = match rev_string cur +:+ s with
    | EmptyString => []
    | t => [t]
    end.
Proof.
  revert cur. induction s as [|d s IH]; intros cur; cbn [contains readlines_go].
  - intros _. rewrite app_empty_r.
    destruct cur as [|e cur]; [reflexivity|].
    destruct (rev_string (String e cur)) eqn:Hrev; [|reflexivity].
    apply (f_equal String.length) in Hrev. unfold rev_string in Hrev.
    rewrite rev_onto_length in Hrev. cbn in Hrev. lia.
  - rewrite (Ascii.eqb_sym d newline).
    destruct (Ascii.eqb newline d); [discriminate|].
    intros Hs. rewrite (IH _ Hs).
    change (String d cur) with (rev_string_onto cur (String d "")).
    rewrite rev_string_onto_spec, string_app_assoc. reflexivity.
Qed.

Lemma readlines_go_line body rest cur :
  contains newline body = false ->
  readlines_go (body +:+ NL +:+ rest) cur
  = (rev_string cur +:+ body +:+ NL) :: readlines_go rest "".
Proof.
  revert cur. induction body as [|d body IH]; intros cur; cbn [contains].
  - intros _. change ("" +:+ NL +:+ rest) with (String newline rest).
    cbn [readlines_go]. rewrite Ascii.eqb_refl.
    change (String newline cur) with (rev_string_onto cur NL).
    by rewrite rev_string_onto_spec.
  - rewrite app_cons. cbn [readlines_go]. rewrite (Ascii.eqb_sym d newline).
    destruct (Ascii.eqb newline d); [discriminate|].
    intros Hbody. rewrite (IH _ Hbody).
    change (String d cur) with (rev_string_onto cur (String d "")).
    rewrite rev_string_onto_spec, string_app_assoc. reflexivity.
Qed.

(** The lines of a text made of lines ended by a newline, and of what
    follows them. *)
Lemma readlines_join bodies rest :
  Forall (fun body => contains newline body = false) bodies ->
  readlines (join_lines ((fun body => body +:+ NL) <$> bodies) +:+ rest)
  = ((fun body => body +:+ NL) <$> bodies) ++ readlines rest.
Proof.
  intros Hall. induction Hall as [|body bodies Hbody _ IH]; [reflexivity|].
  rewrite fmap_cons. cbn [join_lines foldr app].
  rewrite !string_app_assoc. unfold readlines at 1.
  rewrite readlines_go_line by done. f_equal. exact IH.
Qed.

Lemma plain_inv s :
  plain s = true ->
  contains "=" s = false /\ contains "#" s = false
  /\ contains newline s = false.
Proof.
  unfold plain. rewrite !andb_true_iff, !negb_true_iff. tauto.
Qed.

End TextFacts.

(** ** The daemons' state files *)

Section DaemonsTexts.

Variable float : Type.
Variable py_float : string -> float + string.
Variable fs : string -> option string.

#[local] Abbreviation scan := (daemons_loop float py_float).
#[local] Abbreviation reads := (line_entry float py_float).

(** X7: the lines of one character and the lines that hold a ['#'] do not
    count: taking them out changes nothing to the mapping built, nor to the
    exception met.  A ['#'] anywhere discards the whole line, also after an
    entry. *)
Theorem daemons_ignores_skipped_lines lines items :
  daemons_loop float py_float
    (List.filter (fun line => negb (skipped line)) lines) items
  = daemons_loop float py_float lines items.
Proof.
  revert items. induction lines as [|line lines IH]; intros items; [reflexivity|].
  cbn [List.filter]. destruct (skipped line) eqn:Hskip; cbn [negb].
  - rewrite (loop_skipped float py_float) by done. apply IH.
  - unfold skipped in Hskip. cbn [daemons_loop].
    rewrite <- negb_orb, Hskip. cbn [negb].
    destruct (split "=" (drop_last line) !! 1%nat) as [field|]; [|reflexivity].
    destruct (py_float (strip_ends field)) as [x|msg]; [|reflexivity].
    destruct (split "=" (drop_last line) !! 0%nat) as [key|]; [|reflexivity].
    apply IH.
Qed.

Lemma foldl_insert_other (k : string) (entries : list (string * float))
    (m : gmap string float) :
  (forall y, (k, y) ∉ entries) ->
  foldl (fun m e => <[e.1 := e.2]> m) m entries !! k = m !! k.
Proof.
  revert m. induction entries as [|[k' y] entries IH]; intros m Hfresh;
    [reflexivity|].
  cbn [foldl fst snd]. rewrite IH.
  - apply lookup_insert_ne. intros ->. apply (Hfresh y). left.
  - intros z Hz. apply (Hfresh z). by right.
Qed.

(** X8: a key that several lines give keeps the value of the last of them:
    when the lines of a file contribute the entries [before], then
    [(key, x)], then [after], and no entry of [after] is for [key], the
    mapping returned holds [x] for [key]. *)
Theorem daemons_last_entry_wins lines before after key x :
  Forall2 (line_entry float py_float) lines
    (before ++ Some (key, x) :: after) ->
  (forall y, Some (key, y) ∉ after) ->
  exists items,
    daemons_loop float py_float lines ∅ = inl items /\ items !! key = Some x.
Proof.
  intros Hlines Hlast. eexists. split.
  - rewrite <- (app_nil_r lines).
    rewrite (loop_entries float py_float _ _ _ _ Hlines). reflexivity.
  - rewrite omap_app, foldl_app. cbn [omap list_omap id foldl fst snd].
    rewrite foldl_insert_other; [apply lookup_insert_eq|].
    intros y Hy. apply (Hlast y).
    apply list_elem_of_omap in Hy as (e & He & Heq). cbn in Heq. by subst e.
Qed.

Lemma quoted_plain c value :
  c <> quote -> contains c value = false -> contains c (quoted value) = false.
Proof.
  intros Hc Hvalue. unfold quoted. cbn [contains].
  apply Ascii.eqb_neq in Hc. rewrite Hc, contains_app, Hvalue. cbn [contains].
  by rewrite Hc.
Qed.

(** The line [key="value"] with its newline is read as the entry of
    [key]. *)
Lemma render_entry_reads key value x :
  plain key = true -> plain value = true -> py_float value = inl x ->
  reads (render_entry key value) (Some (key, x)).
Proof.
  clear fs. intros Hkey Hvalue Hfloat.
  apply plain_inv in Hkey as (Hk1 & Hk2 & Hk3).
  apply plain_inv in Hvalue as (Hv1 & Hv2 & Hv3).
  right. exists key, x. split; [|done]. split.
  - unfold skipped, render_entry. apply orb_false_iff. split.
    + apply Nat.eqb_neq. unfold len. rewrite !app_length.
      unfold quoted, NL. cbn [String.length]. lia.
    + rewrite !contains_app, Hk2, quoted_plain by done. reflexivity.
  - exists (key +:+ "=" +:+ quoted value), value, []. split; [|split; [|done]].
    + unfold render_entry. by rewrite !string_app_assoc.
    + apply split_key_field; [done|]. by apply quoted_plain.
Qed.

Lemma rendered_lines (entries : list (string * string * float)) :
  (fun e => render_entry e.1.1 e.1.2) <$> entries
  = (fun body => body +:+ NL)
      <$> ((fun e => e.1.1 +:+ "=" +:+ quoted e.1.2) <$> entries).
Proof.
  rewrite <- list_fmap_compose. apply list_fmap_ext. intros i e _.
  unfold render_entry. cbn. by rewrite !string_app_assoc.
Qed.

Lemma readlines_rendered (entries : list (string * string * float)) rest :
  Forall (fun e => plain e.1.1 = true /\ plain e.1.2 = true
                   /\ py_float e.1.2 = inl e.2) entries ->
  readlines (join_lines ((fun e => render_entry e.1.1 e.1.2) <$> entries)
             +:+ rest)
  = ((fun e => render_entry e.1.1 e.1.2) <$> entries) ++ readlines rest.
Proof.
  intros Hall. rewrite rendered_lines. apply readlines_join.
  apply Forall_fmap. eapply Forall_impl; [exact Hall|].
  intros [[k v] x] (Hk & Hv & _). cbn [fst snd] in *.
  apply plain_inv in Hk as (_ & _ & Hk). apply plain_inv in Hv as (_ & _ & Hv).
  unfold compose. cbn [fst snd].
  rewrite !contains_app, Hk. cbn [orb contains]. by apply quoted_plain.
Qed.

Lemma rendered_reads (entries : list (string * string * float)) :
  Forall (fun e => plain e.1.1 = true /\ plain e.1.2 = true
                   /\ py_float e.1.2 = inl e.2) entries ->
  Forall2 reads ((fun e => render_entry e.1.1 e.1.2) <$> entries)
    ((fun e => Some (e.1.1, e.2)) <$> entries).
Proof.
  intros Hall. apply Forall2_fmap, Forall_Forall2_diag.
  eapply Forall_impl; [exact Hall|].
  intros [[k v] x] (Hk & Hv & Hx). cbn [fst snd] in *.
  by apply render_entry_reads.
Qed.

Lemma foldl_entries (entries : list (string * string * float))
    (m : gmap string float) :
  foldl (fun m e => <[e.1 := e.2]> m) m
    (omap id ((fun e => Some (e.1.1, e.2)) <$> entries))
  = foldl (fun m e => <[e.1.1 := e.2]> m) m entries.
Proof.
  revert m. induction entries as [|e entries IH]; intros m; [reflexivity|].
  rewrite fmap_cons. cbn [omap list_omap id foldl fst snd]. apply IH.
Qed.

(** X9: a state file made of lines [key="value"], each ended by a newline,
    with keys and values that hold no ['='], no ['#'] and no newline and
    with values that [float] accepts, is read back as the mapping of the
    keys to the floats of the values (the last line of a key giving its
    value). *)
Theorem daemons_file_read_back filename
    (entries : list (string * string * float)) :
  Forall (fun e => plain e.1.1 = true /\ plain e.1.2 = true
                   /\ py_float e.1.2 = inl e.2) entries ->
  fs filename
  = Some (join_lines ((fun e => render_entry e.1.1 e.1.2) <$> entries)) ->
  get_daemons_stats_ float py_float fs filename
  = Return (Items [foldl (fun m e => <[e.1.1 := e.2]> m) ∅ entries]).
Proof.
  intros Hall Hfile. unfold get_daemons_stats_. rewrite Hfile.
  pose proof (readlines_rendered entries "" Hall) as Hlines.
  rewrite app_empty_r in Hlines. rewrite Hlines.
  change (readlines "") with (@nil string).
  rewrite (loop_entries float py_float _ _ [] ∅ (rendered_reads _ Hall)).
  cbn [daemons_loop]. res_simpl. by rewrite foldl_entries.
Qed.

(** X10: [line[:-1]] takes the last character of a line whatever it is.
    When the last line of a file is [key="value"] with no newline after it,
    the closing quote goes with it and the last character of the value goes
    with the quotes: the float stored for [key] is that of the value less
    its last character. *)
Theorem daemons_last_line_cut filename
    (entries : list (string * string * float)) key value c x :
  Forall (fun e => plain e.1.1 = true /\ plain e.1.2 = true
                   /\ py_float e.1.2 = inl e.2) entries ->
  plain key = true -> plain (value +:+ String c "") = true ->
  py_float value = inl x ->
  fs filename
  = Some (join_lines ((fun e => render_entry e.1.1 e.1.2) <$> entries)
          +:+ key +:+ "=" +:+ quoted (value +:+ String c "")) ->
  get_daemons_stats_ float py_float fs filename
  = Return (Items [<[key := x]>
                     (foldl (fun m e => <[e.1.1 := e.2]> m) ∅ entries)]).
Proof.
  intros Hall Hkey Hvalue Hfloat Hfile. unfold get_daemons_stats_. rewrite Hfile.
  apply plain_inv in Hkey as (Hk1 & Hk2 & Hk3).
  apply plain_inv in Hvalue as (Hv1 & Hv2 & Hv3).
  set (last_line := key +:+ "=" +:+ quoted (value +:+ String c "")).
  assert (Hnl : contains newline last_line = false).
  { unfold last_line. rewrite !contains_app, Hk3. cbn [orb contains].
    by apply quoted_plain. }
  assert (Hlast : readlines last_line = [last_line]).
  { unfold readlines. rewrite readlines_go_plain by done.
    change (rev_string "" +:+ last_line) with last_line.
    unfold last_line. destruct key; reflexivity. }
  rewrite (readlines_rendered entries last_line Hall), Hlast.
  rewrite (loop_entries float py_float _ _ _ _ (rendered_reads _ Hall)).
  unfold last_line.
  rewrite (daemons_line_without_newline float py_float key value c x).
  - by rewrite foldl_entries.
  - apply split_key_field; [done|].
    change (String quote (value +:+ String c ""))
      with (String quote "" +:+ (value +:+ String c "")).
    rewrite contains_app, Hv1. reflexivity.
  - unfold skipped. apply orb_false_iff. split.
    + apply Nat.eqb_neq. unfold len. rewrite !app_length.
      unfold quoted. cbn [String.length]. lia.
    + rewrite !contains_app, Hk2, quoted_plain by done. reflexivity.
  - done.
Qed.

End DaemonsTexts.

(** ** The agents' component statistics *)

Section AgentsBatches.

Variable payload : Type.
Variable system_agents : gset string.

#[local] Abbreviation stats_of get_stats :=
  (get_agents_component_stats_json_ payload system_agents get_stats).
#[local] Abbreviation run get_stats :=
  (agents_loop payload system_agents get_stats).

(** The accumulators only carry what was found before. *)
Lemma agents_loop_shift get_stats agent_list component failed affected :
  run get_stats agent_list component failed affected
  = match run get_stats agent_list component [] [] with
    | Return (failed', affected') =>
        Return (failed ++ failed', affected ++ affected')
    | Raise e => Raise e
    end.
Proof.
  revert failed affected.
  induction agent_list as [|agent_id agent_list IH]; intros failed affected.
  - cbn. by rewrite !app_nil_r.
  - cbn [agents_loop].
    destruct (attempt payload system_agents get_stats agent_id component)
      as [stats|e].
    + rewrite (IH failed (affected ++ [stats])), (IH [] ([] ++ [stats])).
      destruct (run get_stats agent_list component [] []) as [[f a]|e];
        [|reflexivity].
      by rewrite !app_nil_l, <- app_assoc.
    + destruct (is_WazuhException e); [|reflexivity].
      rewrite (IH (failed ++ [(agent_id, e)]) affected),
        (IH ([] ++ [(agent_id, e)]) []).
      destruct (run get_stats agent_list component [] []) as [[f a]|e'];
        [|reflexivity].
      by rewrite !app_nil_l, <- app_assoc.
Qed.

Lemma agents_loop_app get_stats l1 l2 component failed affected :
  run get_stats (l1 ++ l2) component failed affected
  = match run get_stats l1 component failed affected with
    | Return (failed', affected') => run get_stats l2 component failed' affected'
    | Raise e => Raise e
    end.
Proof.
  revert failed affected.
  induction l1 as [|agent_id l1 IH]; intros failed affected; [reflexivity|].
  cbn [app agents_loop].
  destruct (attempt payload system_agents get_stats agent_id component)
    as [stats|e]; [apply IH|].
  destruct (is_WazuhException e); [apply IH|reflexivity].
Qed.

(** X11: a list of agents can be processed in batches: the failures and the
    payloads of [l1 ++ l2] are those of [l1] followed by those of [l2], and
    an exception that stops [l1] stops [l1 ++ l2] in the same way. *)
Theorem agents_batches_compose get_stats l1 l2 component :
  get_agents_component_stats_json_ payload system_agents get_stats
    (l1 ++ l2) component
  = match get_agents_component_stats_json_ payload system_agents get_stats
            l1 component with
    | Return (failed1, affected1) =>
        match get_agents_component_stats_json_ payload system_agents
                get_stats l2 component with
        | Return (failed2, affected2) =>
            Return (failed1 ++ failed2, affected1 ++ affected2)
        | Raise e => Raise e
        end
    | Raise e => Raise e
    end.
Proof.
  unfold get_agents_component_stats_json_. rewrite agents_loop_app.
  destruct (run get_stats l1 component [] []) as [[failed1 affected1]|e];
    [|reflexivity].
  apply agents_loop_shift.
Qed.

(** X12: the accessor is never called for an agent that is not in the
    inventory: two accessors that agree on the known agents give the same
    result, whatever they do for the others. *)
Theorem agents_unknown_never_fetched get_stats1 get_stats2 agent_list component :
  (forall agent_id, agent_id ∈ system_agents ->
     get_stats1 agent_id component = get_stats2 agent_id component) ->
  get_agents_component_stats_json_ payload system_agents get_stats1
    agent_list component
  = get_agents_component_stats_json_ payload system_agents get_stats2
      agent_list component.
Proof.
  intros Hsame. unfold get_agents_component_stats_json_.
  generalize (@nil (string * exn)) (@nil payload).
  induction agent_list as [|agent_id agent_list IH]; intros failed affected;
    [reflexivity|].
  cbn [agents_loop].
  assert (Htry : attempt payload system_agents get_stats1 agent_id component
                 = attempt payload system_agents get_stats2 agent_id component).
  { unfold attempt. case_bool_decide as Hknown; [reflexivity|].
    by apply Hsame. }
  rewrite Htry.
  destruct (attempt payload system_agents get_stats2 agent_id component)
    as [stats|e]; [apply IH|].
  destruct (is_WazuhException e); [apply IH|reflexivity].
Qed.

(** X13: an exception of the accessor that is not a [WazuhException] is not
    recorded as a failure: the first one leaves the function as it is, and
    what was collected for the agents before it is lost. *)
Theorem agents_foreign_error_aborts get_stats pre agent_id post component e :
  platform_errors_only payload system_agents get_stats pre component ->
  agent_id ∈ system_agents ->
  get_stats agent_id component = Raise e -> is_WazuhException e = false ->
  get_agents_component_stats_json_ payload system_agents get_stats
    (pre ++ agent_id :: post) component
  = Raise e.
Proof.
  intros Hpre Hknown Hraise Hforeign.
  apply agents_unexpected_error; [done| |done].
  unfold attempt. by rewrite bool_decide_eq_false_2 by (intros Hn; by apply Hn).
Qed.

End AgentsBatches.

(** ** The control socket *)

Section SocketProtocol.

Variable wazuh_path : string.
Variable connect : string -> bool.
Variable send : string -> string -> option exn.
Variable receive : string -> string -> result string.
Variable json_loads : string -> option json.
Variable reformat : string -> option string.

#[local] Abbreviation ask :=
  (get_daemons_stats_from_socket wazuh_path connect send receive
     json_loads reformat).
#[local] Abbreviation sockets := (sockets_path wazuh_path).

(** *** Identifiers *)

Lemma zfill_long s : (3 <= len s)%nat -> zfill 3 s = s.
Proof. intros Hlen. unfold zfill. apply Nat.leb_le in Hlen. by rewrite Hlen. Qed.

Lemma zfill_length s : (3 <= len (zfill 3 s))%nat.
Proof.
  destruct (le_lt_dec 3 (len s)) as [Hlong|Hshort].
  - by rewrite zfill_long.
  - destruct s as [|a [|b [|c r]]]; [cbv; lia| | |cbn in Hshort; lia].
    + unfold zfill. cbn [len String.length Nat.leb Nat.sub].
      destruct (Ascii.eqb a "+" || Ascii.eqb a "-"); cbv; lia.
    + unfold zfill. cbn [len String.length Nat.leb Nat.sub].
      destruct (Ascii.eqb a "+" || Ascii.eqb a "-"); cbv; lia.
Qed.

Lemma zfill_idempotent s : zfill 3 (zfill 3 s) = zfill 3 s.
Proof. apply zfill_long, zfill_length. Qed.

Lemma zfill_manager s :
  zfill 3 s = "000" <-> s = "" \/ s = "0" \/ s = "00" \/ s = "000".
Proof.
  split.
  - destruct (le_lt_dec 3 (len s)) as [Hlong|Hshort].
    + rewrite zfill_long by done. auto.
    + destruct s as [|a [|b [|c r]]]; [auto| | |cbn in Hshort; lia].
      * unfold zfill. cbn [len String.length Nat.leb Nat.sub].
        destruct (Ascii.eqb a "+" || Ascii.eqb a "-") eqn:Hsign.
        -- intros [= ->]. discriminate.
        -- intros [= ->]. auto.
      * unfold zfill. cbn [len String.length Nat.leb Nat.sub].
        destruct (Ascii.eqb a "+" || Ascii.eqb a "-") eqn:Hsign.
        -- intros [= -> ->]. discriminate.
        -- intros [= -> ->]. auto.
  - intros [->|[->|[->| ->]]]; reflexivity.
Qed.

(** X14: the manager is addressed by the identifiers ["0"], ["00"] and
    ["000"] and by no other: for these the daemon ["agent"] is refused and
    any other daemon is asked on its own socket; every other identifier, as
    ["0000"] or ["+0"], goes to the ["request"] socket with its padded
    form. *)
Theorem manager_identifiers agent_id daemon :
  agent_id <> "" -> daemon <> "" ->
  (agent_id ∈ ["0"; "00"; "000"] ->
   request wazuh_path agent_id daemon
   = if String.eqb daemon "agent" then Raise (WazuhError 1310 None)
     else Return (path_join sockets daemon, "getstate"))
  /\ (agent_id ∉ ["0"; "00"; "000"] ->
      request wazuh_path agent_id daemon
      = Return (path_join sockets "request",
                zfill 3 agent_id +:+ " " +:+ daemon +:+ " getstate")).
Proof.
  clear connect send receive json_loads reformat.
  intros Hid Hd. split.
  - intros Hin. assert (Hpad : zfill 3 agent_id = "000").
    { apply zfill_manager. rewrite !elem_of_cons, elem_of_nil in Hin. tauto. }
    destruct (String.eqb daemon "agent") eqn:Hagent.
    + apply String.eqb_eq in Hagent as ->. by apply request_manager_agent.
    + apply String.eqb_neq in Hagent. by apply request_manager.
  - intros Hout. apply request_agent; try done.
    rewrite zfill_manager. rewrite !elem_of_cons, elem_of_nil in Hout. tauto.
Qed.

(** X15: an identifier and its padded form are the same request: the
    function does to the socket, and gives back, the same for [agent_id]
    and for [agent_id.zfill(3)]. *)
Theorem padded_identifier_same_request agent_id daemon :
  agent_id <> "" ->
  ask (zfill 3 agent_id) daemon = ask agent_id daemon.
Proof.
  intros Hid. unfold get_daemons_stats_from_socket, request.
  rewrite zfill_idempotent.
  assert (Hpad : zfill 3 agent_id <> "").
  { intros Hempty. pose proof (zfill_length agent_id) as Hlen.
    rewrite Hempty in Hlen. cbn in Hlen. lia. }
  apply String.eqb_neq in Hid, Hpad. by rewrite Hid, Hpad.
Qed.

(** *** The exchange *)

(** X16: whatever the transport does, a call opens at most one socket,
    sends at most one command and receives at most one reply, in this
    order: the events are the first events of one complete exchange, and
    nothing is tried again. *)
Theorem socket_events_in_order agent_id daemon :
  exists dest_socket command,
    (ask agent_id daemon).1 `prefix_of` full_exchange dest_socket command.
Proof.
  unfold get_daemons_stats_from_socket, exchange, full_exchange.
  destruct (request wazuh_path agent_id daemon) as [[dest cmd]|e].
  - exists dest, cmd. destruct (connect dest).
    + destruct (send dest cmd).
      * cbn [fst]. by exists [Receive; Close].
      * destruct (receive dest cmd); cbn [fst].
        -- by exists [].
        -- by exists [Close].
    + cbn [fst]. by exists [Send cmd; Receive; Close].
  - exists "", "". cbn [fst]. apply prefix_nil.
Qed.

(** X17: the function returns a mapping only after one complete exchange:
    the socket was opened, the command sent, the reply received and the
    socket closed. *)
Theorem socket_closed_on_return agent_id daemon data :
  (ask agent_id daemon).2 = Return data ->
  exists dest_socket command,
    request wazuh_path agent_id daemon = Return (dest_socket, command)
    /\ (ask agent_id daemon).1 = full_exchange dest_socket command.
Proof.
  unfold get_daemons_stats_from_socket, exchange, full_exchange.
  destruct (request wazuh_path agent_id daemon) as [[dest cmd]|e];
    [|discriminate].
  destruct (connect dest); [|discriminate].
  destruct (send dest cmd); [discriminate|].
  destruct (receive dest cmd) as [rec_msg|e].
  - intros _. by exists dest, cmd.
  - cbn [snd]. destruct (is_ValueError e); discriminate.
Qed.

(** *** The reply *)

Lemma after_first_space_app token msg :
  contains " " token = false ->
  after_first_space (token +:+ " " +:+ msg) = Some msg.
Proof.
  induction token as [|c token IH]; cbn [contains]; [reflexivity|].
  rewrite app_cons. cbn [after_first_space]. rewrite (Ascii.eqb_sym c " ").
  destruct (Ascii.eqb " " c); [discriminate|exact IH].
Qed.

(** X18: an error envelope is cut at its first space only: for a reply
    [<token> <message>] that fails the structured decoding, the error
    raised carries the whole message, with the spaces it holds. *)
Theorem error_envelope_message agent_id daemon token msg :
  replies wazuh_path connect send receive agent_id daemon
    (token +:+ " " +:+ msg) ->
  decode json_loads reformat (token +:+ " " +:+ msg) = None ->
  contains " " token = false ->
  (ask agent_id daemon).2 = Raise (WazuhError 1117 (Some msg)).
Proof.
  intros Hreply Hdecode Htoken.
  destruct (from_socket_reply wazuh_path connect send receive json_loads
              reformat _ _ _ Hreply) as (dest & cmd & ->).
  cbn [snd]. unfold format_response.
  by rewrite Hdecode, after_first_space_app.
Qed.

Lemma update_loop_bad (items : list (string * json)) (data : gmap string json)
    k v :
  NoDup items.*1 -> k ∈ items.*1 -> is_time_key k = true ->
  data !! k = Some v ->
  (forall s, v = JString s -> reformat s = None) ->
  update_loop reformat items data = None.
Proof.
  intros Hnodup Hin Hk Hv Hbad. revert data Hv.
  induction items as [|[k' v0] items IH]; intros data Hv.
  - by apply elem_of_nil in Hin.
  - csimpl in *. apply NoDup_cons in Hnodup as [Hfresh Hnodup].
    destruct (decide (k' = k)) as [->|Hne].
    + rewrite Hk, Hv. destruct v; try reflexivity.
      by rewrite (Hbad _ eq_refl).
    + apply elem_of_cons in Hin as [Heq|Hin]; [congruence|].
      destruct (is_time_key k'); [|by apply IH].
      destruct (data !! k') as [[| | |s| |]|]; try reflexivity.
      destruct (reformat s) as [t|]; [|reflexivity]. csimpl.
      apply IH; try done. by rewrite lookup_insert_ne.
Qed.

(** X19: a structured reply one of whose timestamp fields is no text, or a
    text that [strptime] refuses, is not returned: it is handled as an
    error envelope, so that the error raised carries what follows the
    first space of the JSON text, or [IndexError] is raised when it holds
    no space. *)
Theorem reply_bad_timestamp agent_id daemon rec_msg top data k v :
  replies wazuh_path connect send receive agent_id daemon rec_msg ->
  json_loads rec_msg = Some (JObject top) ->
  top !! "data" = Some (JObject data) ->
  is_time_key k = true -> data !! k = Some v ->
  (forall s, v = JString s -> reformat s = None) ->
  (ask agent_id daemon).2
  = match after_first_space rec_msg with
    | Some msg => Raise (WazuhError 1117 (Some msg))
    | None => Raise IndexError
    end.
Proof.
  intros Hreply Hjson Hdata Hk Hv Hbad.
  destruct (from_socket_reply wazuh_path connect send receive json_loads
              reformat _ _ _ Hreply) as (dest & cmd & ->).
  cbn [snd]. unfold format_response, decode. rewrite Hjson, Hdata.
  rewrite (update_loop_bad (map_to_list data) data k v); try done.
  - apply NoDup_fst_map_to_list.
  - apply list_elem_of_fmap. exists (k, v). split; [done|].
    by apply elem_of_map_to_list.
Qed.

End SocketProtocol.

(** ** The further properties on sample environments *)

Section MoreExamples.

Import Sample MoreSamples.

Lemma averages_read_buckets_sample :
  (exists h,
     hourly_ stats_root buckets = Return [h]
     /\ averages h !! 3%nat = Some 17
     /\ interactions h = 5)
  /\ (exists ws,
        weekly_ stats_root buckets = Return ws
        /\ day <$> ws = ["Sun"; "Mon"; "Tue"; "Wed"; "Thu"; "Fri"; "Sat"]
        /\ forall w, ws !! 2%nat = Some w -> hours w !! 7%nat = Some 42).
Proof.
  destruct (averages_read_buckets stats_root buckets) as [Hhourly Hweekly].
  split.
  - destruct (Hhourly hourly_buckets_parse) as (h & Hh & Hbucket & Hcount).
    exists h. split; [exact Hh|]. split.
    + apply (Hbucket 3%nat ("17" +:+ NL)); [lia|reflexivity|reflexivity].
    + apply (Hcount "5"); reflexivity.
  - destruct (Hweekly weekly_buckets_parse) as (ws & Hws & Hdays & Hday).
    exists ws. split; [exact Hws|]. split; [exact Hdays|].
    intros w Hw. destruct (Hday 2%nat w Hw) as [Hhours _].
    apply (Hhours 7%nat "42"); [lia|reflexivity|reflexivity].
Defined.

Lemma averages_raise_iff_sample :
  hourly_ stats_root damaged_buckets = Raise ValueError
  /\ weekly_ stats_root damaged_buckets = Raise ValueError
  /\ (exists h, hourly_ stats_root buckets = Return [h]).
Proof.
  destruct (averages_raise_iff stats_root damaged_buckets)
    as (Hhourly & _ & Hweekly & _).
  destruct (averages_raise_iff stats_root buckets) as (_ & Hreturns & _).
  split; [|split].
  - apply Hhourly. exists 7%nat, "abc".
    split; [lia|]. split; reflexivity.
  - apply Hweekly. exists 2%nat, 7%nat, "abc".
    split; [lia|]. split; [lia|]. split; reflexivity.
  - apply Hreturns. exact hourly_buckets_parse.
Defined.

Lemma totals_records_extend_sample :
  [mkTotals 10 [mkAlert 2 3 4; mkAlert 6 7 8] 1 2 3 4]
    `prefix_of`
  [mkTotals 10 [mkAlert 2 3 4; mkAlert 6 7 8] 1 2 3 4;
   mkTotals 12 [mkAlert 9 9 9] 1 2 3 4].
Proof.
  apply (totals_records_extend totals_log next_hour [mkAlert 9 9 9] _ false);
    reflexivity.
Defined.

Lemma totals_loop_raises_at_sample :
  exists pre line post pending affected,
    ReplySamples.spoiled_log = pre ++ line :: post
    /\ totals_scan pre [] [] = Return (Next pending affected)
    /\ ((is_alert_line line /\ alert_of line = None)
        \/ (is_closing_line line /\ closing_of pending line = None)).
Proof.
  apply (totals_loop_raises_at ReplySamples.spoiled_log ValueError).
  reflexivity.
Defined.

Lemma daemons_last_entry_wins_sample :
  exists items,
    daemons_loop _ decimal
      [render_entry "a" "1"; render_entry "b" "7"; render_entry "a" "2"] ∅
    = inl items
    /\ items !! "a" = Some (2, 0%nat).
Proof.
  apply (daemons_last_entry_wins _ decimal _
           [Some ("a", (1, 0%nat)); Some ("b", (7, 0%nat))] [] "a" (2, 0%nat)).
  - constructor;
      [apply (render_entry_reads _ decimal "a" "1" (1, 0%nat)); reflexivity|].
    constructor;
      [apply (render_entry_reads _ decimal "b" "7" (7, 0%nat)); reflexivity|].
    constructor;
      [apply (render_entry_reads _ decimal "a" "2" (2, 0%nat)); reflexivity|].
    constructor.
  - intros y Hy. by apply elem_of_nil in Hy.
Defined.

Lemma state_entries_plain :
  Forall (fun e => plain e.1.1 = true /\ plain e.1.2 = true
                   /\ decimal e.1.2 = inl e.2) state_entries.
Proof.
  unfold state_entries.
  repeat (apply Forall_cons_2; [repeat split; reflexivity|]).
  apply Forall_nil_2.
Qed.

Lemma daemons_file_read_back_sample :
  get_daemons_stats_ _ decimal entries_files
    "/var/ossec/var/run/wazuh-analysisd.state"
  = Return (Items [<["queue_size" := (225, 2%nat)]>
                     (<["tcp_sessions" := (12, 0%nat)]>
                        (<["queue_size" := (15, 1%nat)]> ∅))]).
Proof.
  apply (daemons_file_read_back _ decimal entries_files
           "/var/ossec/var/run/wazuh-analysisd.state" state_entries).
  - exact state_entries_plain.
  - reflexivity.
Defined.

Lemma daemons_last_line_cut_sample :
  get_daemons_stats_ _ decimal entries_files "/var/ossec/var/run/cut.state"
  = Return (Items [<["events" := (1, 0%nat)]>
                     (foldl (fun m e => <[e.1.1 := e.2]> m) ∅ state_entries)]).
Proof.
  apply (daemons_last_line_cut _ decimal entries_files
           "/var/ossec/var/run/cut.state" state_entries "events" "1." "5");
    [exact state_entries_plain|reflexivity|reflexivity|reflexivity|reflexivity].
Defined.

Lemma known_agent_001 : "001" ∈ known_agents.
Proof. apply elem_of_union. left. by apply elem_of_singleton. Qed.

Lemma known_agent_002 : "002" ∈ known_agents.
Proof. apply elem_of_union. right. by apply elem_of_singleton. Qed.

Lemma agents_unknown_never_fetched_sample :
  get_agents_component_stats_json_ string known_agents fetch_stats
    ["003"; "001"; "002"] "logcollector"
  = get_agents_component_stats_json_ string known_agents fetch_known_only
      ["003"; "001"; "002"] "logcollector".
Proof.
  apply agents_unknown_never_fetched.
  intros agent_id Hknown. unfold fetch_known_only.
  by rewrite bool_decide_eq_true_2.
Defined.

Lemma agents_foreign_error_aborts_sample :
  get_agents_component_stats_json_ string known_agents fetch_or_crash
    ["001"; "002"; "003"] "logcollector"
  = Raise (PyException "KeyError").
Proof.
  apply (agents_foreign_error_aborts string known_agents fetch_or_crash
           ["001"] "002" ["003"] "logcollector").
  - intros agent_id e Hin _. apply list_elem_of_singleton in Hin as ->.
    discriminate.
  - exact known_agent_002.
  - reflexivity.
  - reflexivity.
Defined.

Lemma manager_identifiers_sample :
  request "/var/ossec" "00" "wazuh-analysisd"
  = Return ("/var/ossec/queue/sockets/wazuh-analysisd", "getstate")
  /\ request "/var/ossec" "0000" "wazuh-analysisd"
     = Return ("/var/ossec/queue/sockets/request",
               "0000 wazuh-analysisd getstate").
Proof.
  split.
  - apply (manager_identifiers "/var/ossec" "00" "wazuh-analysisd");
      [discriminate|discriminate|].
    right. left.
  - apply (manager_identifiers "/var/ossec" "0000" "wazuh-analysisd");
      [discriminate|discriminate|].
    rewrite !elem_of_cons, elem_of_nil. intros [|[|[|[]]]]; discriminate.
Defined.

Lemma padded_identifier_same_request_sample :
  get_daemons_stats_from_socket "/var/ossec" open_any send_any receive_from
    loads to_utc "001" "wazuh-analysisd"
  = get_daemons_stats_from_socket "/var/ossec" open_any send_any receive_from
      loads to_utc "1" "wazuh-analysisd".
Proof.
  apply (padded_identifier_same_request "/var/ossec" open_any send_any
           receive_from loads to_utc "1" "wazuh-analysisd").
  discriminate.
Defined.

Lemma socket_closed_on_return_sample :
  exists dest_socket command,
    request "/var/ossec" "1" "wazuh-analysisd" = Return (dest_socket, command)
    /\ (get_daemons_stats_from_socket "/var/ossec" open_any send_any
          receive_from loads to_utc "1" "wazuh-analysisd").1
       = full_exchange dest_socket command.
Proof.
  apply (socket_closed_on_return "/var/ossec" open_any send_any receive_from
           loads to_utc "1" "wazuh-analysisd"
           (<["last_keepalive" := JString "2021-01-01T00:00:00Z"]> state_data)).
  vm_compute. reflexivity.
Defined.

Lemma denied_replies :
  replies "/var/ossec" open_any send_any receive_denied "7" "wazuh-logcollector"
    ("err" +:+ " " +:+ "Agent is not connected").
Proof.
  eexists _, _. split; [reflexivity|]. split; [reflexivity|].
  split; reflexivity.
Qed.

Lemma error_envelope_message_sample :
  (get_daemons_stats_from_socket "/var/ossec" open_any send_any receive_denied
     loads to_utc "7" "wazuh-logcollector").2
  = Raise (WazuhError 1117 (Some "Agent is not connected")).
Proof.
  apply (error_envelope_message "/var/ossec" open_any send_any receive_denied
           loads to_utc "7" "wazuh-logcollector" "err" "Agent is not connected");
    [exact denied_replies|reflexivity|reflexivity].
Defined.

Lemma stale_replies :
  replies "/var/ossec" open_any send_any receive_stale "5" "wazuh-analysisd"
    stale_reply.
Proof.
  eexists _, _. split; [reflexivity|]. split; [reflexivity|].
  split; reflexivity.
Qed.

Lemma reply_bad_timestamp_sample :
  (get_daemons_stats_from_socket "/var/ossec" open_any send_any receive_stale
     loads_stale to_utc "5" "wazuh-analysisd").2
  = Raise (WazuhError 1117 (Some "state of 005}")).
Proof.
  apply (reply_bad_timestamp "/var/ossec" open_any send_any receive_stale
           loads_stale to_utc "5" "wazuh-analysisd" stale_reply
           {[ "error" := JNumber "0"; "data" := JObject stale_data ]}
           stale_data "last_keepalive" (JString "yesterday"));
    [exact stale_replies|reflexivity|reflexivity|reflexivity|reflexivity|].
  intros s [= <-]. reflexivity.
Defined.

End MoreExamples.
